(** * School management console: the record store and the generic CRUD view

    A shallow embedding of [alishba.py].  The script keeps seven tables in
    one SQLite file and drives them from a Streamlit page: three accessors
    ([get_df], [add_record], [delete_record]), one generic view
    ([crud_module]) and a router over the sidebar selection.

    The file first fixes the part of SQLite, pandas and Python's [re] that
    the script relies on, then transcribes the script, then proves the
    properties of its specification. *)

From Stdlib Require Import ZArith Lia Ascii String.
From stdpp Require Import base option list strings gmap pretty.

Local Open Scope Z_scope.

(** ** Exceptions and results *)

(** The exceptions that [sqlite3], pandas and [re] raise in the situations
    modelled below.  An exception aborts the current run of the script. *)
Inductive exn : Type :=
  | OperationalError   (* sqlite3: unknown table or column, malformed statement, store full *)
  | IntegrityError     (* sqlite3: duplicate identifier, datatype mismatch *)
  | ProgrammingError   (* sqlite3: wrong number of bound parameters *)
  | OverflowError      (* sqlite3: a Python int that does not fit 64 bits *)
  | KeyError           (* pandas: no column of that label *)
  | TypeError          (* Python: unsupported operand types *)
  | ReError            (* re: the pattern does not compile *)
  | RerunException.    (* streamlit: [st.rerun()] stops the run and schedules another *)

Inductive result (A : Type) : Type :=
  | Ok (a : A)
  | Err (e : exn).
Arguments Ok {A} a.
Arguments Err {A} e.

Definition result_bind {A B : Type} (f : A → result B) (m : result A) : result B :=
  match m with
  | Ok a => f a
  | Err e => Err e
  end.

#[global] Instance result_ret : MRet result := λ A a, Ok a.
#[global] Instance result_mbind : MBind result := λ A B f m, result_bind f m.

Definition from_option {A : Type} (e : exn) (o : option A) : result A :=
  match o with
  | Some a => Ok a
  | None => Err e
  end.

(** [mapM] for [result], left to right, stopping at the first exception. *)
Fixpoint result_mapM {A B : Type} (f : A → result B) (l : list A) : result (list B) :=
  match l with
  | [] => Ok []
  | a :: l' => b ← f a; bs ← result_mapM f l'; Ok (b :: bs)
  end.

(** ** Values *)

(** The values that travel between Python and SQLite: [None]/NULL, integers,
    doubles and text.  The type of doubles is a parameter (see [Host]). *)
Inductive value_of (R : Type) : Type :=
  | VNull
  | VInt (z : Z)
  | VReal (r : R)
  | VText (s : string).
Arguments VNull {R}.
Arguments VInt {R} z.
Arguments VReal {R} r.
Arguments VText {R} s.

(** The objects that pandas puts into the cells of a [DataFrame]: [None],
    NaN, Python ints, floats and strings. *)
Inductive pyobject (R : Type) : Type :=
  | PyNone
  | PyNaN
  | PyInt (z : Z)
  | PyFloat (r : R)
  | PyStr (s : string).
Arguments PyNone {R}.
Arguments PyNaN {R}.
Arguments PyInt {R} z.
Arguments PyFloat {R} r.
Arguments PyStr {R} s.

(** What the model takes from the host libraries without defining it:
    floating point, the random rowid probe of a saturated table, regular
    expressions beyond literals and [.], and pandas' reductions over columns
    that are not all-integer. *)
Class Host : Type := {
  (** IEEE doubles as SQLite and Python share them. *)
  real : Type;
  (** Whether a double is a NaN. *)
  real_is_nan : real → bool;
  (** Conversion of a 64-bit integer to the nearest double. *)
  real_of_int : Z → real;
  (** SQLite's reading of a text as a numeric literal ([sqlite3AtoF]), never
      a NaN; [None] when the text is not a well-formed number. *)
  real_of_text : string → option real;
  (** The integer a double denotes exactly, when it has one in 64 bits. *)
  real_int : real → option Z;
  (** SQLite's rendering of a double as text. *)
  real_text : real → string;
  (** Python's [str] of a float. *)
  real_str : real → string;
  (** The rowid SQLite settles on after probing at random, once the largest
      rowid is taken; [None] when it gives up (SQLITE_FULL). *)
  random_rowid : list Z → option Z;
  random_rowid_fresh : ∀ used z, random_rowid used = Some z → z ∉ used;
  (** Whether [re.IGNORECASE] identifies two characters of which at least one
      is not ASCII. *)
  casefold_eq : ascii → ascii → bool;
  (** [re.compile(pat, re.IGNORECASE).search(s) is not None] for the patterns
      that use more than literal characters and [.]. *)
  re_search_other : string → string → result bool;
  (** [Series.sum()] of a column that pandas does not hold as [int64]. *)
  sum_inexact : list (value_of real) → result (value_of real)
}.

Abbreviation value := (value_of real).
Abbreviation pycell := (pyobject real).

(** ** Text helpers *)

(** ASCII lower-casing, the folding that SQLite applies to identifiers and
    that [re.IGNORECASE] applies to ASCII letters. *)
Definition lower_ascii (c : ascii) : ascii :=
  let n := Ascii.N_of_ascii c in
  if ((65 <=? n) && (n <=? 90))%N then Ascii.ascii_of_N (n + 32) else c.

Fixpoint lower (s : string) : string :=
  match s with
  | EmptyString => EmptyString
  | String c s' => String (lower_ascii c) (lower s')
  end.

Definition is_digit (c : ascii) : bool :=
  let n := Ascii.N_of_ascii c in ((48 <=? n) && (n <=? 57))%N.

Definition digit_val (c : ascii) : Z := Z.of_N (Ascii.N_of_ascii c) - 48.

(** Value of a run of decimal digits, most significant first; [None] when a
    character is not a digit. *)
Fixpoint digits_val (acc : Z) (s : string) : option Z :=
  match s with
  | EmptyString => Some acc
  | String c s' => if is_digit c then digits_val (10 * acc + digit_val c) s' else None
  end.

(** A plain integer literal: an optional sign and at least one digit. *)
Definition int_literal (s : string) : option Z :=
  match s with
  | EmptyString => None
  | String "-" (String c s') => Z.opp <$> digits_val 0 (String c s')
  | String "+" (String c s') => digits_val 0 (String c s')
  | _ => digits_val 0 s
  end.

(** A name that SQLite reads as one identifier wherever an f-string of the
    script pastes it: ASCII letters, digits and underscores, not starting
    with a digit. *)
Definition is_letter (c : ascii) : bool :=
  let n := Ascii.N_of_ascii c in
  ((65 <=? n) && (n <=? 90) || (97 <=? n) && (n <=? 122))%N.

Definition is_identifier (s : string) : bool :=
  match s with
  | EmptyString => false
  | String c s' =>
      (is_letter c || bool_decide (c = "_"%char)) &&
      forallb (λ c', is_letter c' || is_digit c' || bool_decide (c' = "_"%char))
        (list_ascii_of_string s')
  end.

Definition identifier (s : string) : Prop := is_identifier s = true.

(** ** 64-bit integers *)

Definition MAX_ROWID : Z := 9223372036854775807.
Definition MIN_INT64 : Z := -9223372036854775808.

Definition in_int64 (z : Z) : bool := (MIN_INT64 <=? z) && (z <=? MAX_ROWID).

(** Two's-complement wrap-around of numpy's [int64] arithmetic. *)
Definition wrap64 (z : Z) : Z := (z + 2 ^ 63) mod 2 ^ 64 - 2 ^ 63.

(** ** Column affinity *)

(** The declared types that occur in [tables]. *)
Inductive affinity : Type := INTEGER | TEXT | REAL.

#[global] Instance affinity_eq_dec : EqDecision affinity.
Proof. solve_decision. Defined.

Section Affinity.
Context `{Host}.

(** The number a text denotes for a numeric column: an integer when the text
    is an integer literal that fits 64 bits or a real literal with an
    integral value, a double otherwise; [None] when it is not a number. *)
Definition numeric_of_text (s : string) : option value :=
  match int_literal s with
  | Some z =>
      if in_int64 z then Some (VInt z) else VReal <$> real_of_text s
  | None =>
      match real_of_text s with
      | Some r =>
          Some (match real_int r with Some z => VInt z | None => VReal r end)
      | None => None
      end
  end.

(** The conversion SQLite applies to a bound value on its way into a column.
    A NaN is bound as NULL ([sqlite3_bind_double]), whatever the column. *)
Definition apply_affinity (a : affinity) (v : value) : value :=
  match a, v with
  | _, VNull => VNull
  | INTEGER, VInt z => VInt z
  | INTEGER, VReal r =>
      if real_is_nan r then VNull
      else match real_int r with Some z => VInt z | None => VReal r end
  | INTEGER, VText s => default (VText s) (numeric_of_text s)
  | REAL, VInt z => VReal (real_of_int z)
  | REAL, VReal r => if real_is_nan r then VNull else VReal r
  | REAL, VText s =>
      match numeric_of_text s with
      | Some (VInt z) => VReal (real_of_int z)
      | Some v' => v'
      | None => VText s
      end
  | TEXT, VInt z => VText (pretty z)
  | TEXT, VReal r => if real_is_nan r then VNull else VText (real_text r)
  | TEXT, VText s => VText s
  end.

(** [sqlite3] refuses to bind a Python int outside the 64-bit range. *)
Definition bindable (v : value) : bool :=
  match v with
  | VInt z => in_int64 z
  | _ => true
  end.

Definition bind_params (vs : list value) : result unit :=
  if forallb bindable vs then Ok () else Err OverflowError.

End Affinity.

(** ** The store *)

(** A column name in a statement denotes either the rowid (the [id INTEGER
    PRIMARY KEY] column and its aliases) or one of the declared fields. *)
Inductive colref : Type :=
  | RowId
  | Field (name : string) (a : affinity).

#[global] Instance colref_eq_dec : EqDecision colref.
Proof. solve_decision. Defined.

(** The statements that the script's f-strings produce, for table and
    column names that are identifiers ([identifier] below): the f-strings
    paste the names into the text of the statement, and SQLite reads a name
    with other characters (a comma, a space, a quote, a parenthesis, a dot)
    as something else than one name.  Every name the script itself passes
    is an identifier.  [?] placeholders are counted. *)
Inductive statement : Type :=
  | CreateIfNotExists (table : string) (fields : list (string * affinity))
  | InsertInto (table : string) (cols : list string) (placeholders : nat)
  | DeleteWhereId (table : string)
  | UpdateSetWhereId (table field : string).

Section Store.
Context `{Host}.

(** A row: its rowid and the contents of its fields (an absent field is
    NULL). *)
Record row : Type := { rid : Z; cells : gmap string value }.

(** The content of a table, in the shape of the seven declarations of
    [tables]: the rowid alias [id] followed by the declared fields, rows in
    rowid order. *)
Record table_state : Type := { tfields : list (string * affinity); trows : list row }.

(** The store: tables by name.  SQLite compares identifiers without regard
    to ASCII case, so tables are filed under their lower-cased name. *)
Abbreviation db := (gmap string table_state).

Definition cell (r : row) (c : string) : value := default VNull (cells r !! c).

Definition ids (t : table_state) : list Z := rid <$> trows t.

Definition get_table (name : string) (d : db) : result table_state :=
  from_option OperationalError (d !! lower name).

Definition put_rows (name : string) (t : table_state) (rows : list row) (d : db) : db :=
  <[lower name := {| tfields := tfields t; trows := rows |}]> d.

(** First declared field whose name equals [n] up to ASCII case. *)
Fixpoint find_field (n : string) (fields : list (string * affinity)) : option colref :=
  match fields with
  | [] => None
  | (c, a) :: rest =>
      if bool_decide (lower c = lower n) then Some (Field c a) else find_field n rest
  end.

Definition rowid_aliases : list string := ["rowid"; "oid"; "_rowid_"].

(** Name resolution: the [id] column comes first in every declaration, then
    the fields in order, then the built-in names of the rowid. *)
Definition resolve_column (fields : list (string * affinity)) (n : string) : option colref :=
  if bool_decide (lower n = "id") then Some RowId
  else match find_field n fields with
       | Some r => Some r
       | None => if bool_decide (lower n ∈ rowid_aliases) then Some RowId else None
       end.

Definition resolve (fields : list (string * affinity)) (n : string) : result colref :=
  from_option OperationalError (resolve_column fields n).

(** [WHERE id=?]: the rowid against a bound parameter.  The parameter has no
    affinity, so a text is read as a number before the comparison. *)
Definition id_equals (v : value) (i : Z) : bool :=
  match apply_affinity INTEGER v with
  | VInt z => bool_decide (z = i)
  | _ => false
  end.

(** Rows are kept in rowid order. *)
Fixpoint insert_row (r : row) (rows : list row) : list row :=
  match rows with
  | [] => [r]
  | r' :: rest => if rid r <? rid r' then r :: rows else r' :: insert_row r rest
  end.

(** The rowid of a new row that names none: one more than the largest in
    use, 1 in an empty table, a random free one once the largest possible
    rowid is taken. *)
Definition next_rowid (used : list Z) : option Z :=
  match used with
  | [] => Some 1
  | i :: rest =>
      let m := foldr Z.max i rest in
      if m <? MAX_ROWID then Some (m + 1) else random_rowid used
  end.

(** Value given to the field [target] by an insert: that of the first listed
    column that denotes it. *)
Definition assigned (refs : list colref) (vs : list value) (target : colref) : option value :=
  snd <$> List.find (λ p, bool_decide (p.1 = target)) (zip refs vs).

(** Value given to the rowid by an insert: that of the last listed column
    that denotes it. *)
Definition assigned_rowid (refs : list colref) (vs : list value) : option value :=
  snd <$> List.find (λ p, bool_decide (p.1 = RowId)) (reverse (zip refs vs)).

(** What a field holds after an insert: the listed value under the field's
    affinity, NULL when the field is not listed (no declaration has a
    default). *)
Definition stored (a : affinity) (o : option value) : value :=
  match o with
  | Some v => apply_affinity a v
  | None => VNull
  end.

Definition new_cells (fields : list (string * affinity)) (refs : list colref)
    (vs : list value) : gmap string value :=
  list_to_map ((λ f, (f.1, stored f.2 (assigned refs vs (Field f.1 f.2)))) <$> fields).

(** The rowid of the row an [INSERT] adds: the listed value when the
    statement names the rowid and gives it a number, a fresh one when it
    does not or gives NULL. *)
Definition insert_rowid (o : option value) (used : list Z) : result Z :=
  match apply_affinity INTEGER (default VNull o) with
  | VNull => from_option OperationalError (next_rowid used)
  | VInt z => if bool_decide (z ∈ used) then Err IntegrityError else Ok z
  | _ => Err IntegrityError
  end.

Definition matches (w : value) (r : row) : bool := id_equals w (rid r).

Definition set_cell (c : string) (v : value) (r : row) : row :=
  {| rid := rid r; cells := <[c := v]> (cells r) |}.

(** [SET f=? WHERE id=?] for a declared field. *)
Definition update_field (c : string) (a : affinity) (v w : value) (rows : list row) : list row :=
  (λ r, if matches w r then set_cell c (apply_affinity a v) r else r) <$> rows.

(** [SET id=? WHERE id=?].  Rowids are unique, so at most one row matches;
    the new rowid must be an integer that no other row has, and the row
    moves to its place in rowid order. *)
Definition update_rowid (v w : value) (rows : list row) : result (list row) :=
  match List.filter (matches w) rows with
  | [] => Ok rows
  | r :: _ =>
      match apply_affinity INTEGER v with
      | VInt z =>
          if bool_decide (z = rid r) then Ok rows
          else if bool_decide (z ∈ rid <$> rows) then Err IntegrityError
          else Ok (insert_row {| rid := z; cells := cells r |}
                     (List.filter (λ r', negb (matches w r')) rows))
      | _ => Err IntegrityError
      end
  end.

(** [cursor.execute(statement, params)] followed by [conn.commit()]: the
    store after the statement, or the exception it raises. *)
Definition execute (s : statement) (params : list value) (d : db) : result db :=
  match s with
  | CreateIfNotExists table fields =>
      match params with
      | [] =>
          Ok (match d !! lower table with
              | Some _ => d
              | None => <[lower table := {| tfields := fields; trows := [] |}]> d
              end)
      | _ => Err ProgrammingError
      end
  | InsertInto table cols n =>
      t ← get_table table d;
      if bool_decide (cols = []) then Err OperationalError else
      refs ← result_mapM (resolve (tfields t)) cols;
      if bool_decide (n ≠ length cols) then Err OperationalError else
      if bool_decide (length params ≠ n) then Err ProgrammingError else
      _ ← bind_params params;
      i ← insert_rowid (assigned_rowid refs params) (ids t);
      Ok (put_rows table t
            (insert_row {| rid := i; cells := new_cells (tfields t) refs params |} (trows t)) d)
  | DeleteWhereId table =>
      t ← get_table table d;
      match params with
      | [w] =>
          _ ← bind_params params;
          Ok (put_rows table t (List.filter (λ r, negb (matches w r)) (trows t)) d)
      | _ => Err ProgrammingError
      end
  | UpdateSetWhereId table field =>
      t ← get_table table d;
      ref ← resolve (tfields t) field;
      match params with
      | [v; w] =>
          _ ← bind_params params;
          match ref with
          | Field c a => Ok (put_rows table t (update_field c a v w (trows t)) d)
          | RowId => rows ← update_rowid v w (trows t); Ok (put_rows table t rows d)
          end
      | _ => Err ProgrammingError
      end
  end.

(** ** Frames *)

(** The content of a pandas [DataFrame]: column labels and rows of cells in
    that order. *)
Record frame : Type := { columns : list string; data : list (list value) }.

Definition select_row (fields : list (string * affinity)) (r : row) : list value :=
  VInt (rid r) :: ((λ f, cell r f.1) <$> fields).

(** The frame of a [SELECT *]: every row, in rowid order, columns in
    declaration order.  [data] holds the values as SQLite returns them; the
    objects that pandas makes of them, column by column, are [df_cells]
    below. *)
Definition frame_of (t : table_state) : frame :=
  {| columns := "id" :: (tfields t).*1; data := select_row (tfields t) <$> trows t |}.

(** [pd.read_sql_query("SELECT * FROM t", conn)]. *)
Definition read_sql_query_select_all (table : string) (d : db) : result frame :=
  t ← get_table table d;
  Ok (frame_of t).

End Store.

Abbreviation db := (gmap string table_state).

(** ** Regular expressions *)

(** [Series.str.contains(pat, case=False)] treats [pat] as a regular
    expression.  The patterns made of literal characters and [.] are
    interpreted here; all others are left to [re_search_other]. *)
Inductive atom : Type :=
  | Lit (c : ascii)
  | AnyChar.

(** The characters with a meaning of their own in a pattern. *)
Definition special_chars : list ascii :=
  ["."; "\"; "["; "]"; "{"; "}"; "("; ")"; "*"; "+"; "?"; "^"; "$"; "|"]%char.

Definition is_special (c : ascii) : bool := bool_decide (c ∈ special_chars).

(** The atoms of a pattern without operators other than [.]. *)
Fixpoint parse_simple (pat : string) : option (list atom) :=
  match pat with
  | EmptyString => Some []
  | String c pat' =>
      if bool_decide (c = "."%char) then (AnyChar ::.) <$> parse_simple pat'
      else if is_special c then None
      else (Lit c ::.) <$> parse_simple pat'
  end.

Definition is_ascii_char (c : ascii) : bool := (Ascii.N_of_ascii c <? 128)%N.

Definition newline : ascii := Ascii.ascii_of_N 10.

Section Regex.
Context `{Host}.

(** Equality of characters under [re.IGNORECASE]. *)
Definition ci_eq (c d : ascii) : bool :=
  if is_ascii_char c && is_ascii_char d
  then bool_decide (lower_ascii c = lower_ascii d)
  else casefold_eq c d.

Definition atom_matches (a : atom) (d : ascii) : bool :=
  match a with
  | Lit c => ci_eq c d
  | AnyChar => negb (bool_decide (d = newline))
  end.

(** The atoms match a prefix of [s]. *)
Fixpoint match_here (atoms : list atom) (s : string) : bool :=
  match atoms, s with
  | [], _ => true
  | _ :: _, EmptyString => false
  | a :: atoms', String d s' => atom_matches a d && match_here atoms' s'
  end.

(** [regex.search]: the atoms match at some position of [s]. *)
Fixpoint match_anywhere (atoms : list atom) (s : string) : bool :=
  match_here atoms s ||
  match s with
  | EmptyString => false
  | String _ s' => match_anywhere atoms s'
  end.

(** [re.compile(pat, re.IGNORECASE).search(s) is not None]. *)
Definition re_search (pat s : string) : result bool :=
  match parse_simple pat with
  | Some atoms => Ok (match_anywhere atoms s)
  | None => re_search_other pat s
  end.

End Regex.

(** ** pandas *)

(** The dtypes that [read_sql_query] gives the columns of these tables. *)
Inductive dtype : Type := Int64 | Float64 | ObjectDtype.

#[global] Instance dtype_eq_dec : EqDecision dtype.
Proof. solve_decision. Defined.

Section Pandas.
Context `{Host}.

Definition is_int (v : value) : bool :=
  match v with VInt _ => true | _ => false end.

Definition is_number (v : value) : bool :=
  match v with VInt _ | VReal _ => true | _ => false end.

Definition is_text (v : value) : bool :=
  match v with VText _ => true | _ => false end.

(** A column of integers is [int64]; numbers and NULLs make [float64] (NULL
    becomes NaN); anything with a text, a column of NULLs only and the
    columns of a frame without rows are [object]. *)
Definition column_dtype (vs : list value) : dtype :=
  match vs with
  | [] => ObjectDtype
  | _ =>
      if forallb is_int vs then Int64
      else if negb (existsb is_text vs) && existsb is_number vs then Float64
      else ObjectDtype
  end.

Definition column_values (i : nat) (f : frame) : list value :=
  (λ r, default VNull (r !! i)) <$> data f.

Definition dtypes (f : frame) : list dtype :=
  (λ i, column_dtype (column_values i f)) <$> seq 0 (length (columns f)).

(** The object that [read_sql_query] puts into a column of dtype [dt] for a
    value that SQLite returns: in a [float64] column an integer becomes a
    float and NULL becomes NaN; an [int64] or [object] column keeps the
    Python objects of the values. *)
Definition pandas_cell (dt : dtype) (v : value) : pycell :=
  match dt, v with
  | Float64, VNull => PyNaN
  | Float64, VInt z => PyFloat (real_of_int z)
  | _, VNull => PyNone
  | _, VInt z => PyInt z
  | _, VReal r => PyFloat r
  | _, VText s => PyStr s
  end.

(** The cells of the [DataFrame], row by row. *)
Definition df_cells (f : frame) : list (list pycell) :=
  (λ r, zip_with pandas_cell (dtypes f) r) <$> data f.

(** The dtype of a row handed to the function of [df.apply(..., axis=1)]:
    the common dtype of the columns. *)
Definition row_dtype (dts : list dtype) : dtype :=
  if forallb (λ t, bool_decide (t = Int64)) dts then Int64
  else if forallb (λ t, bool_decide (t ≠ ObjectDtype)) dts then Float64
  else ObjectDtype.

(** Python's [str] of a cell held as an object. *)
Definition py_str (v : value) : string :=
  match v with
  | VNull => "None"
  | VInt z => pretty z
  | VReal r => real_str r
  | VText s => s
  end.

(** Python's [str] of a cell held as a float. *)
Definition float_str (v : value) : string :=
  match v with
  | VNull => "nan"
  | VInt z => real_str (real_of_int z)
  | VReal r => real_str r
  | VText s => s
  end.

Definition cell_str (rd cd : dtype) (v : value) : string :=
  match rd, cd with
  | Float64, _ | ObjectDtype, Float64 => float_str v
  | _, _ => py_str v
  end.

(** [row.astype(str)] for a row [r] of the frame [f]. *)
Definition astype_str (f : frame) (r : list value) : list string :=
  let dts := dtypes f in
  zip_with (cell_str (row_dtype dts)) dts r.

(** [row.astype(str).str.contains(search, case=False).any()]. *)
Definition row_contains (search : string) (f : frame) (r : list value) : result bool :=
  hits ← result_mapM (re_search search) (astype_str f r);
  Ok (existsb id hits).

(** Rows for which [p] holds, evaluated in order up to the first exception. *)
Fixpoint select_rows {A : Type} (p : A → result bool) (l : list A) : result (list A) :=
  match l with
  | [] => Ok []
  | a :: l' =>
      b ← p a;
      rest ← select_rows p l';
      Ok (if (b : bool) then a :: rest else rest)
  end.

(** The rows of [df[df.apply(lambda row: ..., axis=1)]]. *)
Definition search_rows (search : string) (f : frame) : result (list (list value)) :=
  select_rows (row_contains search f) (data f).

(** [if search: df = df[...]]: the rows that [st.dataframe(df)] displays. *)
Definition shown_rows (search : string) (f : frame) : result (list (list value)) :=
  if bool_decide (search ≠ "") then search_rows search f else Ok (data f).

(** [len(df)] and [df.empty]. *)
Definition df_len (f : frame) : Z := Z.of_nat (length (data f)).

Definition df_empty (f : frame) : bool :=
  bool_decide (data f = []) || bool_decide (columns f = []).

Fixpoint index_of (label : string) (labels : list string) : option nat :=
  match labels with
  | [] => None
  | l :: rest => if bool_decide (l = label) then Some 0%nat else S <$> index_of label rest
  end.

(** [df[label]]: the cells of the column with that label. *)
Definition df_getitem (label : string) (f : frame) : result (list value) :=
  i ← from_option KeyError (index_of label (columns f));
  Ok (column_values i f).

Definition int_of (v : value) : Z :=
  match v with VInt z => z | _ => 0 end.

Definition sum_ints (vs : list value) : Z := foldr (λ (v : value) acc, int_of v + acc) 0 vs.

(** [Series.sum()]: 64-bit addition on an [int64] column. *)
Definition series_sum (vs : list value) : result value :=
  match column_dtype vs with
  | Int64 => Ok (VInt (wrap64 (sum_ints vs)))
  | _ => sum_inexact vs
  end.

End Pandas.

(** ** The script *)

(** The modules of the sidebar. *)
Inductive module : Type :=
  | Dashboard | Students | Teachers | Attendance | Fees | Exams | Library | Timetable.

(** The state of the page's widgets during one run, by key (by label for
    the widgets without a key). *)
Record session : Type := {
  text_input : string → string;
  number_input : string → Z;
  button : string → bool;
  checkbox : string → bool;
  selectbox : string → nat
}.

Section Script.
Context `{Host}.

(** A run of the script threads the store and may stop on an exception;
    the store is then the one the run had reached.  Every statement takes
    effect at once: transactions are not modelled. *)
Inductive outcome (A : Type) : Type :=
  | Done (a : A) (d : db)
  | Raised (e : exn) (d : db).
Arguments Done {A} a d.
Arguments Raised {A} e d.

Definition script (A : Type) : Type := db → outcome A.

Definition script_ret {A : Type} (a : A) : script A := λ d, Done a d.

Definition script_bind {A B : Type} (m : script A) (k : A → script B) : script B :=
  λ d, match m d with
       | Done a d' => k a d'
       | Raised e d' => Raised e d'
       end.

Definition store_of {A : Type} (o : outcome A) : db :=
  match o with
  | Done _ d => d
  | Raised _ d => d
  end.

(** A computation that reads the store. *)
Definition reading {A : Type} (f : db → result A) : script A :=
  λ d, match f d with
       | Ok a => Done a d
       | Err e => Raised e d
       end.

(** [c.execute(statement, params)] and [conn.commit()]. *)
Definition run_sql (s : statement) (params : list value) : script unit :=
  λ d, match execute s params d with
       | Ok d' => Done () d'
       | Err e => Raised e d
       end.

Definition raise {A : Type} (e : exn) : script A := λ d, Raised e d.

Definition when (b : bool) (m : script unit) : script unit :=
  if b then m else script_ret ().

End Script.

Arguments Done {_ A} a d.
Arguments Raised {_ A} e d.

Notation "'let*' x := m 'in' k" := (script_bind m (λ x, k))
  (at level 10, x name, m at level 100, k at level 200).
Notation "m ;; k" := (script_bind m (λ _, k))
  (at level 100, k at level 200, right associativity).

(** The declarations of [tables], each after its [id INTEGER PRIMARY KEY]. *)
Definition tables : list (string * list (string * affinity)) :=
  [ ("students", [("name", TEXT); ("class", TEXT); ("age", INTEGER)]);
    ("teachers", [("name", TEXT); ("subject", TEXT)]);
    ("attendance", [("student_id", INTEGER); ("date", TEXT); ("status", TEXT)]);
    ("fees", [("student_id", INTEGER); ("amount", REAL); ("paid", INTEGER)]);
    ("exams", [("student_id", INTEGER); ("subject", TEXT); ("marks", INTEGER)]);
    ("library", [("book", TEXT); ("student_id", INTEGER); ("issue_date", TEXT)]);
    ("timetable", [("class", TEXT); ("day", TEXT); ("subject", TEXT); ("teacher", TEXT)]) ].

(** What a run displays: the dashboard's metrics or the rows of a table. *)
Inductive page {R : Type} : Type :=
  | Metrics (m : list (string * value_of R))
  | Records (rows : list (list (value_of R))).
Arguments page R : clear implicits.

Section App.
Context `{Host}.

(** [for table, schema in tables.items(): c.execute("CREATE TABLE IF NOT
    EXISTS ...")]. *)
Fixpoint create_tables (l : list (string * list (string * affinity))) : script unit :=
  match l with
  | [] => script_ret ()
  | (table, schema) :: l' =>
      run_sql (CreateIfNotExists table schema) [] ;; create_tables l'
  end.

Definition get_df (table : string) : script frame :=
  reading (read_sql_query_select_all table).

(** One [?] per value, the columns as listed. *)
Definition add_record (table : string) (columns : list string) (values : list value)
    : script unit :=
  let placeholders := length values in
  let cols := columns in
  run_sql (InsertInto table cols placeholders) values.

Definition delete_record (table : string) (id_val : value) : script unit :=
  run_sql (DeleteWhereId table) [id_val].

(** [for field, value in zip(fields, updates): if value: c.execute("UPDATE
    ... SET field=? WHERE id=?", (value, record_id))]. *)
Fixpoint update_loop (table : string) (record_id : Z) (pairs : list (string * string))
    : script unit :=
  match pairs with
  | [] => script_ret ()
  | (field, value) :: rest =>
      when (bool_decide (value ≠ ""))
        (run_sql (UpdateSetWhereId table field) [VText value; VInt record_id]) ;;
      update_loop table record_id rest
  end.

(** The generic view.  It returns the rows it displays.  [title] is only
    displayed. *)
Definition crud_module (title table : string) (fields field_labels add_cols : list string)
    (ss : session) : script (list (list value)) :=
  let inputs :=
    (λ '(label, typ),
       if bool_decide (typ = "text") then VText (text_input ss label)
       else VInt (Z.max 0 (number_input ss label)))
    <$> zip field_labels (replicate (length fields) "text") in
  when (button ss ("add_" +:+ table)) (add_record table add_cols inputs) ;;
  let* df := get_df table in
  let search := text_input ss ("search_" +:+ table) in
  let* shown := reading (λ _, shown_rows search df) in
  let record_id := Z.max 1 (number_input ss ("id_" +:+ table)) in
  when (button ss ("del_" +:+ table))
    (when (checkbox ss "Confirm Delete? This cannot be undone!")
       (delete_record table (VInt record_id) ;; raise RerunException)) ;;
  let updates :=
    (λ '(f, label), text_input ss ("upd_" +:+ table +:+ "_" +:+ f))
    <$> zip fields field_labels in
  when (button ss ("upd_" +:+ table)) (update_loop table record_id (zip fields updates)) ;;
  script_ret shown.

(** The four metrics of the dashboard. *)
Definition dashboard : script (list (string * value)) :=
  let* students := get_df "students" in
  let* teachers := get_df "teachers" in
  let* library := get_df "library" in
  let* fees := get_df "fees" in
  let* paid :=
    (if negb (df_empty fees)
     then let* fees' := get_df "fees" in
          reading (λ _, col ← df_getitem "paid" fees'; series_sum col)
     else script_ret (VInt 0)) in
  script_ret
    [ ("Total Students", VInt (df_len students));
      ("Total Teachers", VInt (df_len teachers));
      ("Books Issued", VInt (df_len library));
      ("Total Fees Paid", paid) ].

Definition status_options : list string := ["Present"; "Absent"].

(** The specialised action of the Attendance module.  [today] is
    [str(date.today())]. *)
Definition mark_attendance (ss : session) (today : string) : script unit :=
  let student_id := Z.max 1 (number_input ss "Student ID") in
  let status := default "Present" (status_options !! selectbox ss "Status") in
  when (button ss "Mark Attendance")
    (add_record "attendance" ["student_id"; "date"; "status"]
       [VInt student_id; VText today; VText status]).

(** One run of the script for the selected module. *)
Definition app (m : module) (ss : session) (today : string) : script (page real) :=
  create_tables tables ;;
  match m with
  | Dashboard => let* ms := dashboard in script_ret (Metrics ms)
  | Students =>
      let* rows := crud_module "Students Management" "students"
        ["name"; "class"; "age"] ["Name"; "Class"; "Age"] ["name"; "class"; "age"] ss in
      script_ret (Records rows)
  | Teachers =>
      let* rows := crud_module "Teachers Management" "teachers"
        ["name"; "subject"] ["Name"; "Subject"] ["name"; "subject"] ss in
      script_ret (Records rows)
  | Attendance =>
      mark_attendance ss today ;;
      let* rows := crud_module "View Attendance Records" "attendance"
        ["student_id"; "date"; "status"] ["Student ID"; "Date"; "Status"]
        ["student_id"; "date"; "status"] ss in
      script_ret (Records rows)
  | Fees =>
      let* rows := crud_module "Fees Management" "fees"
        ["student_id"; "amount"; "paid"] ["Student ID"; "Amount"; "Paid (1=Yes, 0=No)"]
        ["student_id"; "amount"; "paid"] ss in
      script_ret (Records rows)
  | Exams =>
      let* rows := crud_module "Exams & Marks" "exams"
        ["student_id"; "subject"; "marks"] ["Student ID"; "Subject"; "Marks"]
        ["student_id"; "subject"; "marks"] ss in
      script_ret (Records rows)
  | Library =>
      let* rows := crud_module "Library Management" "library"
        ["book"; "student_id"; "issue_date"]
        ["Book Title"; "Student ID"; "Issue Date (YYYY-MM-DD)"]
        ["book"; "student_id"; "issue_date"] ss in
      script_ret (Records rows)
  | Timetable =>
      let* rows := crud_module "Timetable Management" "timetable"
        ["class"; "day"; "subject"; "teacher"] ["Class"; "Day"; "Subject"; "Teacher"]
        ["class"; "day"; "subject"; "teacher"] ss in
      script_ret (Records rows)
  end.

End App.

(** ** A host for the examples *)

(** A small instance on which the definitions can be evaluated: the doubles
    with an integral value, no random rowid, no regular expression beyond
    the interpreted ones.  The examples below use inputs on which it agrees
    with SQLite and Python. *)
Definition integral_host : Host :=
  {| real := Z;
     real_is_nan := λ _, false;
     real_of_int := λ z, z;
     real_of_text := λ _, None;
     real_int := λ z, if in_int64 z then Some z else None;
     real_text := λ z, pretty z +:+ ".0";
     real_str := λ z, pretty z +:+ ".0";
     random_rowid := λ _, None;
     random_rowid_fresh := λ used z (E : None = Some z),
       match E in _ = o return match o with None => True | Some _ => z ∉ used end
       with eq_refl => I end;
     casefold_eq := λ c d, bool_decide (c = d);
     re_search_other := λ _ _, Err ReError;
     sum_inexact := λ _, Err TypeError |}.

(** ** Notions used by the statements *)

Section Notions.
Context `{Host}.

(** A declaration is well formed when its column names, [id] included, are
    pairwise distinct up to ASCII case, as SQLite requires of [CREATE
    TABLE]. *)
Definition wf_fields (fields : list (string * affinity)) : Prop :=
  NoDup (lower <$> "id" :: fields.*1).

(** Identifiers are pairwise distinct in every table. *)
Definition ids_unique (d : db) : Prop :=
  map_Forall (λ _ t, NoDup (ids t)) d.

(** No identifier in use is the largest possible one, so that a new row
    receives the next one. *)
Definition unsaturated (t : table_state) : Prop :=
  Forall (λ i, i < MAX_ROWID) (ids t).

(** The rows filed under [k], none when there is no such table. *)
Definition rows_of (d : db) (k : string) : list row :=
  match d !! k with
  | Some t => trows t
  | None => []
  end.

(** The record that an insert describes: listed column to listed value. *)
Definition record_of (columns : list string) (values : list value) : gmap string value :=
  list_to_map (zip columns values).

(** The replacement texts that an update supplies: field to text, for the
    texts that are not empty. *)
Definition supplied (pairs : list (string * string)) : gmap string string :=
  list_to_map (filter (λ p, p.2 ≠ "") pairs).

(** A value of the declared type of a column: a text for a TEXT column, an
    integer for an INTEGER column, a double other than NaN for a REAL
    column. *)
Definition native (a : affinity) (v : value) : Prop :=
  match a, v with
  | TEXT, VText _ | INTEGER, VInt _ => True
  | REAL, VReal r => real_is_nan r = false
  | _, _ => False
  end.

(** What a column of declared type [a] holds, [w], once the value [v] has
    been written to it: [v] itself when it is of the declared type; NULL
    for [None] and for a NaN; the integer for its decimal text in an
    INTEGER column, the decimal text for an integer in a TEXT column, the
    double for an integer in a REAL column; the text itself when a numeric
    column is given a text that is not a number; in every case the
    conversion by column affinity. *)
Definition typed_as (a : affinity) (v w : value) : Prop :=
  (native a v → w = v) ∧
  (v = VNull → w = VNull) ∧
  (∀ r, v = VReal r → real_is_nan r = true → w = VNull) ∧
  (∀ z, a = INTEGER → v = VText (pretty z) → in_int64 z = true → w = VInt z) ∧
  (∀ z, a = TEXT → v = VInt z → w = VText (pretty z)) ∧
  (∀ z, a = REAL → v = VInt z → w = VReal (real_of_int z)) ∧
  (∀ s, v = VText s → numeric_of_text s = None → w = VText s) ∧
  w = apply_affinity a v.

(** What the specification expects of a row [r] after an update of the row
    [record_id]: another row is left as it is; in the target row a field
    with a supplied text holds that text as the field's column types it
    (the text itself in a TEXT column), never NULL, and any other field is
    as before. *)
Definition row_updated (fields : list (string * affinity)) (record_id : Z)
    (pairs : list (string * string)) (r r' : row) : Prop :=
  rid r' = rid r ∧
  (rid r ≠ record_id → r' = r) ∧
  (rid r = record_id → ∀ c,
     match supplied pairs !! c with
     | Some u =>
         ∃ a, (c, a) ∈ fields ∧ typed_as a (VText u) (cell r' c) ∧ cell r' c ≠ VNull
     | None => cell r' c = cell r c
     end).

(** The fields of the row that an insert of [record] adds to a table
    declared with [fields]: a listed field holds the listed value as its
    column types it, any other field is NULL. *)
Definition fields_of_record (fields : list (string * affinity)) (record : gmap string value)
    (news : list value) : Prop :=
  Forall2 (λ fa w, match record !! fa.1 with
                   | Some v => typed_as fa.2 v w
                   | None => w = VNull
                   end) fields news.

(** The computation of the dashboard's fourth metric from the content of
    [fees]. *)
Definition fees_metric (tf : table_state) : result value :=
  if negb (df_empty (frame_of tf))
  then col ← df_getitem "paid" (frame_of tf); series_sum col
  else Ok (VInt 0).



(** The four metrics, given the contents of the three counted tables and
    the value of the fourth metric. *)
Definition metrics_of (ts tt tl : table_state) (paid : value) : list (string * value) :=
  [ ("Total Students", VInt (Z.of_nat (length (trows ts))));
    ("Total Teachers", VInt (Z.of_nat (length (trows tt))));
    ("Books Issued", VInt (Z.of_nat (length (trows tl))));
    ("Total Fees Paid", paid) ].

(** The changes to the rows of a table that leave every identifier as it
    is: a new row under the identifier the store chooses, the removal of
    the rows a parameter designates, and a rewriting of cells in place. *)
Inductive row_step : list row → list row → Prop :=
  | row_step_insert rows r :
      next_rowid (rid <$> rows) = Some (rid r) →
      row_step rows (insert_row r rows)
  | row_step_delete rows w :
      row_step rows (List.filter (λ r, negb (matches w r)) rows)
  | row_step_update rows (f : row → row) :
      (∀ r, rid (f r) = rid r) →
      row_step rows (f <$> rows).

(** A new row arrives: it comes among the rows that were there, which are
    left as they are, under the identifier that the store chooses from the
    identifiers in use ([next_rowid]). *)
Definition row_arrives (rows rows' : list row) : Prop :=
  ∃ r l1 l2,
    next_rowid (rid <$> rows) = Some (rid r) ∧ rows = l1 ++ l2 ∧ rows' = l1 ++ r :: l2.

(** The same, for the identifiers alone. *)
Definition id_arrives (used used' : list Z) : Prop :=
  ∃ i l1 l2, next_rowid used = Some i ∧ used = l1 ++ l2 ∧ used' = l1 ++ i :: l2.

(** The label of the confirmation box of Delete Record. *)
Definition confirm_delete : string := "Confirm Delete? This cannot be undone!".

(** The identifier typed into the Update / Delete panel of a table. *)
Definition typed_id (ss : session) (k : string) : Z :=
  Z.max 1 (number_input ss ("id_" +:+ k)).

(** What one run, with the widgets [ss], does to the rows of the table [k],
    in the order of the script: Mark Attendance adds a row to [attendance]
    (to [rows1]), Add Record of [k] adds a row (to [rows2]), and then
    either the confirmed Delete Record of [k] removes the row with the
    typed identifier, leaving the others as they are, or the cells are
    rewritten with every row keeping its identifier in place.  A row is
    only ever added under the identifier the store chooses. *)
Definition run_changes (ss : session) (k : string) (rows rows' : list row) : Prop :=
  ∃ rows1 rows2,
    (rows1 = rows ∨
     k = "attendance" ∧ button ss "Mark Attendance" = true ∧ row_arrives rows rows1) ∧
    (rows2 = rows1 ∨
     button ss ("add_" +:+ k) = true ∧ row_arrives rows1 rows2) ∧
    ((∃ f : row → row, (∀ r, rid (f r) = rid r) ∧ rows' = f <$> rows2) ∨
     button ss ("del_" +:+ k) = true ∧ checkbox ss confirm_delete = true ∧
     rows' = List.filter (λ r, negb (bool_decide (rid r = typed_id ss k))) rows2).

(** The rows of the table [k] are rewritten in place, every row keeping its
    identifier. *)
Definition rewritten (k : string) (d d' : db) : Prop :=
  ∃ f : row → row, (∀ r, rid (f r) = rid r) ∧ rows_of d' k = f <$> rows_of d k.

(** The same, for the identifiers alone. *)
Definition run_assigns (ss : session) (k : string) (used used' : list Z) : Prop :=
  ∃ used1 used2,
    (used1 = used ∨
     k = "attendance" ∧ button ss "Mark Attendance" = true ∧ id_arrives used used1) ∧
    (used2 = used1 ∨
     button ss ("add_" +:+ k) = true ∧ id_arrives used1 used2) ∧
    (used' = used2 ∨
     button ss ("del_" +:+ k) = true ∧ checkbox ss confirm_delete = true ∧
     used' = List.filter (λ i, negb (bool_decide (i = typed_id ss k))) used2).

(** A column name that cannot denote the rowid, whatever the table. *)
Definition never_rowid (c : string) : Prop :=
  lower c ≠ "id" ∧ lower c ∉ rowid_aliases.

(** The buttons that insert or delete: Mark Attendance and, for every
    table, Add Record and Delete Record. *)
Definition insert_delete_keys : list string :=
  "Mark Attendance" ::
  ((λ t, "add_" +:+ t) <$> tables.*1) ++ ((λ t, "del_" +:+ t) <$> tables.*1).

(** None of the buttons that insert or delete is pressed. *)
Definition only_updates (ss : session) : Prop :=
  Forall (λ key, button ss key = false) insert_delete_keys.

(** [m] moves the store along [R], whether it returns or raises. *)
Definition moves_along {A : Type} (R : db → db → Prop) (m : script A) : Prop :=
  ∀ d, R d (store_of (m d)).

(** Every table's rows change by steps that keep identifiers. *)
Definition evolves (d d' : db) : Prop :=
  ∀ k, rtc row_step (rows_of d k) (rows_of d' k).

(** Every table has the same identifiers, position by position. *)
Definition same_ids (d d' : db) : Prop :=
  ∀ k, rid <$> rows_of d' k = rid <$> rows_of d k.

(** One interaction with the page: the module selected, the widgets and
    the date. *)
Record interaction : Type := { sel : module; widgets : session; clock : string }.

(** The store after the run that an interaction triggers. *)
Definition interact (d : db) (i : interaction) : db :=
  store_of (app (sel i) (widgets i) (clock i) d).

(** Two texts of the same length whose characters agree up to case. *)
Fixpoint ci_equal (q s : string) : bool :=
  match q, s with
  | EmptyString, EmptyString => true
  | String c q', String d s' => ci_eq c d && ci_equal q' s'
  | _, _ => false
  end.

(** [s] contains [q] case-insensitively. *)
Definition ci_contains (q s : string) : Prop :=
  ∃ pre mid post, s = pre +:+ mid +:+ post ∧ ci_equal q mid = true.

(** The rows the specification expects of a search for [q] in [f]: those
    with a cell whose string form contains [q] case-insensitively, in the
    order of the frame; the whole frame for the empty query. *)
Definition search_spec (q : string) (f : frame) (shown : list (list value)) : Prop :=
  if bool_decide (q = "") then shown = data f
  else ∃ keep : list value → bool,
         (∀ r, keep r = true ↔ ∃ s, s ∈ astype_str f r ∧ ci_contains q s) ∧
         shown = List.filter keep (data f).

(** A query without regular expression operators. *)
Definition plain (q : string) : Prop :=
  Forall (λ c, is_special c = false) (list_ascii_of_string q).

End Notions.

(** ** Stores for the examples *)

(** The store after the first run on an empty file: the seven tables,
    without rows. *)
Definition started : gmap string (@table_state integral_host) :=
  store_of (@create_tables integral_host tables ∅).

(** One student, entered through the Add panel of the Students module. *)
Definition one_student : gmap string (@table_state integral_host) :=
  store_of (@add_record integral_host "students" ["name"; "class"; "age"]
              [VText "Aisha"; VText "5A"; VText "10"] started).

(** In addition, one attendance entry and two fee records for that
    student and a second, absent one. *)
Definition school : gmap string (@table_state integral_host) :=
  store_of (@add_record integral_host "fees" ["student_id"; "amount"; "paid"]
              [VInt 2; VInt 300; VInt 0]
    (store_of (@add_record integral_host "fees" ["student_id"; "amount"; "paid"]
                 [VInt 1; VInt 500; VInt 1]
       (store_of (@add_record integral_host "attendance" ["student_id"; "date"; "status"]
                    [VInt 1; VText "2024-05-06"; VText "Present"] one_student))))).

(** The widgets of a page on which nothing has been typed or pressed. *)
Definition idle : session :=
  {| text_input := λ _, "";
     number_input := λ _, 0;
     button := λ _, false;
     checkbox := λ _, false;
     selectbox := λ _, 0%nat |}.

(** The Mark Attendance button pressed for student 7, status Present. *)
Definition marking : session :=
  {| text_input := λ _, "";
     number_input := λ key, if bool_decide (key = "Student ID") then 7 else 0;
     button := λ key, bool_decide (key = "Mark Attendance");
     checkbox := λ _, false;
     selectbox := λ _, 0%nat |}.

(** The Update button of the Students module pressed with a new class for
    student 1. *)
Definition updating : session :=
  {| text_input := λ key, if bool_decide (key = "upd_students_class") then "6B" else "";
     number_input := λ key, if bool_decide (key = "id_students") then 1 else 0;
     button := λ key, bool_decide (key = "upd_students");
     checkbox := λ _, false;
     selectbox := λ _, 0%nat |}.

(** The frame of the students of [one_student]. *)
Definition one_student_frame : @frame integral_host :=
  {| columns := ["id"; "name"; "class"; "age"];
     data := [[VInt 1; VText "Aisha"; VText "5A"; VInt 10]] |}.

(** The content of the table [k] of [d] (an empty one when [d] has no such
    table). *)
Definition table_of (d : gmap string (@table_state integral_host)) (k : string)
    : @table_state integral_host :=
  default {| tfields := []; trows := [] |} (d !! k).

(** ** Further notions *)

Section FurtherNotions.
Context `{Host}.

(** Every table of [d] is in [d'] as it is. *)
Definition tables_kept (d d' : db) : Prop :=
  ∀ k t, d !! k = Some t → d' !! k = Some t.

(** Every table has the same rows. *)
Definition same_rows (d d' : db) : Prop :=
  ∀ k, rows_of d' k = rows_of d k.

(** A query whose only regular expression operator is the full stop. *)
Definition dotted (q : string) : Prop :=
  Forall (λ c, c = "."%char ∨ is_special c = false) (list_ascii_of_string q).

(** Two texts of the same length that agree character by character: a
    full stop of the query stands for any character but a newline, any
    other character for itself up to case. *)
Fixpoint wild_equal (q s : string) : bool :=
  match q, s with
  | EmptyString, EmptyString => true
  | String c q', String d s' =>
      (if bool_decide (c = "."%char) then negb (bool_decide (d = newline)) else ci_eq c d)
      && wild_equal q' s'
  | _, _ => false
  end.

(** [s] has a part that the query [q] describes. *)
Definition wild_contains (q s : string) : Prop :=
  ∃ pre mid post, s = pre +:+ mid +:+ post ∧ wild_equal q mid = true.

End FurtherNotions.

(** ** Further sessions for the examples *)

(** Add Record pressed in the Students module, with the three boxes
    filled. *)
Definition adding : session :=
  {| text_input := λ key,
       if bool_decide (key = "Name") then "Bilal"
       else if bool_decide (key = "Class") then "4C"
       else if bool_decide (key = "Age") then "9"
       else "";
     number_input := λ _, 0;
     button := λ key, bool_decide (key = "add_students");
     checkbox := λ _, false;
     selectbox := λ _, 0%nat |}.

(** Delete Record pressed in the Students module for student 1, with the
    confirmation box as given; Update Record is pressed too. *)
Definition deleting (confirmed : bool) : session :=
  {| text_input := λ key, if bool_decide (key = "upd_students_class") then "6B" else "";
     number_input := λ key, if bool_decide (key = "id_students") then 1 else 0;
     button := λ key, bool_decide (key = "del_students") || bool_decide (key = "upd_students");
     checkbox := λ _, confirmed;
     selectbox := λ _, 0%nat |}.

(** The Add panel of the attendance view filled for student 7, Present. *)
Definition adding_attendance : session :=
  {| text_input := λ key,
       if bool_decide (key = "Student ID") then "7"
       else if bool_decide (key = "Date") then "2024-05-06"
       else if bool_decide (key = "Status") then "Present"
       else "";
     number_input := λ _, 0;
     button := λ key, bool_decide (key = "add_attendance");
     checkbox := λ _, false;
     selectbox := λ _, 0%nat |}.

(** * Properties *)

(** ** The store *)

Section StoreFacts.
Context `{Host}.

Implicit Types (d : db) (t : table_state) (r : row) (rows : list row).
Implicit Types (fields : list (string * affinity)) (v w : value).

Lemma table_eta t : {| tfields := tfields t; trows := trows t |} = t.
Proof. by destruct t. Qed.

Lemma put_rows_same table t d :
  d !! lower table = Some t → put_rows table t (trows t) d = d.
Proof. intros E. unfold put_rows. rewrite table_eta. by apply insert_id. Qed.

Lemma put_rows_lookup table t rows d :
  put_rows table t rows d !! lower table = Some {| tfields := tfields t; trows := rows |}.
Proof. unfold put_rows. by rewrite lookup_insert_eq. Qed.

Lemma put_rows_lookup_ne table t rows d k :
  k ≠ lower table → put_rows table t rows d !! k = d !! k.
Proof. intros E. unfold put_rows. by rewrite lookup_insert_ne. Qed.

(** *** Rowids *)

Lemma foldr_max_ge (i : Z) (l : list Z) :
  i ≤ foldr Z.max i l ∧ Forall (λ j, j ≤ foldr Z.max i l) l.
Proof.
  induction l as [|j l [IH1 IH2]]; simpl; [by split; [lia | constructor]|].
  split; [lia|]. constructor; [lia|].
  eapply Forall_impl; [exact IH2|]. simpl. intros. lia.
Qed.

Lemma next_rowid_fresh (used : list Z) (i : Z) :
  next_rowid used = Some i → i ∉ used.
Proof.
  destruct used as [|j l]; simpl.
  - intros _. apply not_elem_of_nil.
  - destruct (foldr_max_ge j l) as [Hj Hl].
    case_match eqn:E.
    + intros [= <-] Hin. apply Z.ltb_lt in E.
      apply elem_of_cons in Hin as [Hin | Hin]; [lia|].
      rewrite Forall_forall in Hl. specialize (Hl _ Hin). lia.
    + apply random_rowid_fresh.
Qed.

Lemma next_rowid_unsaturated (used : list Z) :
  Forall (λ i, i < MAX_ROWID) used →
  ∃ i, next_rowid used = Some i ∧ Forall (λ j, j < i) used.
Proof.
  destruct used as [|j l]; simpl; intros Hlt.
  - exists 1. by split; [|constructor].
  - destruct (foldr_max_ge j l) as [Hj Hl].
    assert (foldr Z.max j l < MAX_ROWID) as Hm.
    { apply Forall_cons in Hlt as [Hjm Hlm]. clear Hj Hl.
      induction l as [|k l IH]; simpl; [done|].
      apply Forall_cons in Hlm as [? ?]. specialize (IH ltac:(done)). lia. }
    apply Z.ltb_lt in Hm as Hm'. rewrite Hm'.
    eexists; split; [done|]. constructor; [lia|].
    eapply Forall_impl; [exact Hl|]. simpl. intros. lia.
Qed.

Lemma insert_row_last r rows :
  Forall (λ j, j < rid r) (rid <$> rows) → insert_row r rows = rows ++ [r].
Proof.
  induction rows as [|r' rows IH]; simpl; [done|].
  intros [Hlt Hrest]%Forall_cons.
  assert ((rid r <? rid r') = false) as -> by (apply Z.ltb_ge; lia).
  by rewrite IH.
Qed.

Lemma insert_row_split r rows :
  ∃ l1 l2, rows = l1 ++ l2 ∧ insert_row r rows = l1 ++ r :: l2.
Proof.
  induction rows as [|r' rows (l1 & l2 & E & E')]; simpl.
  - by exists [], [].
  - case_match.
    + by exists [], (r' :: rows).
    + exists (r' :: l1), l2. simpl. by rewrite <- E, E'.
Qed.

Lemma insert_row_perm r rows : insert_row r rows ≡ₚ r :: rows.
Proof.
  induction rows as [|r' rows IH]; simpl; [done|].
  case_match; [done|]. rewrite IH. apply Permutation_swap.
Qed.

Lemma insert_row_ids r rows :
  rid <$> insert_row r rows ≡ₚ rid r :: (rid <$> rows).
Proof. by rewrite insert_row_perm. Qed.

Lemma filter_ids_NoDup (p : row → bool) rows :
  NoDup (rid <$> rows) → NoDup (rid <$> List.filter p rows).
Proof.
  induction rows as [|r rows IH]; simpl; [done|].
  intros [Hr Hnd]%NoDup_cons. specialize (IH Hnd).
  destruct (p r); simpl; [|done].
  apply NoDup_cons. split; [|done].
  intros (r' & E & Hin)%list_elem_of_fmap. apply Hr.
  apply list_elem_of_fmap. exists r'. split; [done|].
  apply list_elem_of_In in Hin. apply filter_In in Hin as [Hin _].
  by apply list_elem_of_In.
Qed.

(** *** Name resolution *)

Lemma find_field_declared fields c a :
  NoDup (lower <$> fields.*1) → (c, a) ∈ fields →
  find_field c fields = Some (Field c a).
Proof.
  induction fields as [|[c' a'] fields IH]; simpl.
  - intros _ Hin. by apply not_elem_of_nil in Hin.
  - intros [Hc' Hnd]%NoDup_cons [E | Hin]%elem_of_cons.
    + injection E as -> ->. by rewrite bool_decide_eq_true_2.
    + rewrite bool_decide_eq_false_2; [by apply IH|].
      intros E. apply Hc'. rewrite E.
      apply list_elem_of_fmap. exists c. split; [done|].
      apply list_elem_of_fmap. by exists (c, a).
Qed.

Lemma resolve_declared fields c a :
  wf_fields fields → (c, a) ∈ fields →
  resolve_column fields c = Some (Field c a).
Proof.
  unfold wf_fields. rewrite fmap_cons. intros [Hid Hnd]%NoDup_cons Hin.
  unfold resolve_column. rewrite bool_decide_eq_false_2.
  - by rewrite (find_field_declared _ _ a).
  - intros E. apply Hid. change (lower "id") with "id". rewrite <- E.
    apply list_elem_of_fmap. exists c. split; [done|].
    apply list_elem_of_fmap. by exists (c, a).
Qed.

Lemma find_field_is_field n fields ref :
  find_field n fields = Some ref → ∃ c a, ref = Field c a ∧ (c, a) ∈ fields.
Proof.
  induction fields as [|[c a] fields IH]; simpl; [done|].
  case_bool_decide.
  - intros [= <-]. exists c, a. split; [done|]. apply elem_of_cons. by left.
  - intros (c' & a' & -> & Hin)%IH. exists c', a'. split; [done|].
    apply elem_of_cons. by right.
Qed.

(** A name that is neither [id] nor one of the built-in names of the rowid
    never denotes the rowid, whatever the declaration. *)
Lemma resolve_not_rowid fields n :
  lower n ≠ "id" → lower n ∉ rowid_aliases → resolve_column fields n ≠ Some RowId.
Proof.
  intros Hid Hal. unfold resolve_column.
  rewrite bool_decide_eq_false_2 by done.
  destruct (find_field n fields) as [ref|] eqn:E.
  - apply find_field_is_field in E as (c & a & -> & _). done.
  - rewrite bool_decide_eq_false_2 by done. done.
Qed.

End StoreFacts.

(** ** Decimal texts *)

Section DecimalTexts.
Context `{Host}.

Lemma pretty_char_digit (n : N) :
  (n < 10)%N →
  is_digit (pretty_N_char n) = true ∧ digit_val (pretty_N_char n) = Z.of_N n.
Proof.
  intros Hn.
  assert (n = 0 ∨ n = 1 ∨ n = 2 ∨ n = 3 ∨ n = 4 ∨ n = 5 ∨ n = 6 ∨ n = 7 ∨ n = 8 ∨ n = 9)%N
    as Hcase by lia.
  repeat (destruct Hcase as [-> | Hcase]; [done|]). by subst n.
Qed.

(** Reading back the digits that [pretty] writes. *)
Lemma digits_val_pretty_go (x : N) :
  ∃ p : Z, ∀ (s : string) (acc : Z),
    digits_val acc (pretty_N_go x s) = digits_val (acc * p + Z.of_N x) s.
Proof.
  induction (N.lt_wf_0 x) as [x _ IH].
  destruct (decide (x = 0)%N) as [->|Hx].
  - exists 1. intros s acc. rewrite pretty_N_go_0. f_equal. lia.
  - destruct (IH (x `div` 10)%N) as [p Hp]; [apply N.div_lt; lia|].
    exists (10 * p). intros s acc.
    rewrite pretty_N_go_step by lia. rewrite Hp. simpl.
    destruct (pretty_char_digit (x `mod` 10)%N) as [-> ->];
      [apply N.mod_lt; lia|].
    f_equal. rewrite (N.div_mod x 10) at 3 by lia. lia.
Qed.

Lemma pretty_go_head (x : N) (s : string) :
  (0 < x)%N →
  ∃ n rest, (n < 10)%N ∧ pretty_N_go x s = String (pretty_N_char n) rest.
Proof.
  revert s. induction (N.lt_wf_0 x) as [x _ IH]. intros s Hx.
  rewrite pretty_N_go_step by done.
  destruct (decide (x `div` 10 = 0)%N) as [E|Hd].
  - rewrite E, pretty_N_go_0. exists (x `mod` 10)%N, s.
    split; [apply N.mod_lt; lia | done].
  - apply IH; [apply N.div_lt; lia | by apply N.neq_0_lt_0].
Qed.

Lemma int_literal_digit_head (n : N) (rest : string) :
  (n < 10)%N →
  int_literal (String (pretty_N_char n) rest)
  = digits_val 0 (String (pretty_N_char n) rest).
Proof.
  intros Hn.
  assert (n = 0 ∨ n = 1 ∨ n = 2 ∨ n = 3 ∨ n = 4 ∨ n = 5 ∨ n = 6 ∨ n = 7 ∨ n = 8 ∨ n = 9)%N
    as Hcase by lia.
  repeat (destruct Hcase as [-> | Hcase]; [done|]). by subst n.
Qed.

Lemma digits_val_pretty_pos (p : positive) :
  digits_val 0 (pretty_N_go (N.pos p) "") = Some (Z.pos p).
Proof.
  destruct (digits_val_pretty_go (N.pos p)) as [m Hm]. rewrite Hm. simpl. f_equal.
Qed.

(** The decimal text of an integer is read back as that integer. *)
Lemma int_literal_pretty (z : Z) : int_literal (pretty z) = Some z.
Proof.
  destruct z as [|p|p].
  - done.
  - change (pretty (Z.pos p)) with (pretty_N_go (N.pos p) "").
    destruct (pretty_go_head (N.pos p) "") as (n & rest & Hn & E); [lia|].
    rewrite E, int_literal_digit_head by done. rewrite <- E.
    apply digits_val_pretty_pos.
  - change (pretty (Z.neg p)) with (String "-" (pretty_N_go (N.pos p) "")).
    destruct (pretty_go_head (N.pos p) "") as (n & rest & Hn & E); [lia|].
    rewrite E. cbn [int_literal]. rewrite <- E.
    by rewrite digits_val_pretty_pos.
Qed.

End DecimalTexts.

(** ** Stored values *)

Section StoredValues.
Context `{Host}.

Lemma numeric_of_text_number (s : string) (v : value) :
  numeric_of_text s = Some v → v ≠ VNull ∧ ∀ s', v ≠ VText s'.
Proof.
  unfold numeric_of_text. destruct (int_literal s) as [z|].
  - destruct (in_int64 z); [by intros [= <-]|].
    destruct (real_of_text s); simpl; [by intros [= <-] | done].
  - destruct (real_of_text s) as [r|]; [|done].
    destruct (real_int r); by intros [= <-].
Qed.

(** A text is never stored as NULL. *)
Lemma apply_affinity_text_not_null (a : affinity) (s : string) :
  apply_affinity a (VText s) ≠ VNull.
Proof.
  destruct a; simpl; [|done|].
  - destruct (numeric_of_text s) as [v|] eqn:E; simpl; [|done].
    by apply numeric_of_text_number in E as [? _].
  - destruct (numeric_of_text s) as [v|] eqn:E; [|done].
    apply numeric_of_text_number in E as [? ?]. by destruct v.
Qed.

(** The conversion by column affinity does what [typed_as] expects. *)
Lemma typed_as_affinity (a : affinity) (v : value) : typed_as a v (apply_affinity a v).
Proof.
  unfold typed_as. repeat split.
  - destruct a, v; simpl; try done. by intros ->.
  - intros ->. by destruct a.
  - intros r -> Hnan. destruct a; simpl; by rewrite Hnan.
  - intros z -> -> Hz. simpl. unfold numeric_of_text.
    by rewrite int_literal_pretty, Hz.
  - by intros z -> ->.
  - by intros z -> ->.
  - intros s -> Hnone. destruct a; simpl; by rewrite ?Hnone.
Qed.

End StoredValues.

(** ** Insertion *)

Section InsertFacts.
Context `{Host}.

Implicit Types (d : db) (t : table_state) (r : row) (rows : list row).
Implicit Types (fields : list (string * affinity)) (v w : value).

Lemma resolve_all_declared fields (columns : list string) :
  wf_fields fields → columns ⊆ fields.*1 →
  ∃ refs, result_mapM (resolve fields) columns = Ok refs ∧
          Forall2 (λ c ref, ∃ a, ref = Field c a ∧ (c, a) ∈ fields) columns refs.
Proof.
  intros Hwf. induction columns as [|c columns IH]; intros Hsub.
  - exists []. by split; [|constructor].
  - assert (c ∈ fields.*1) as Hc by (apply Hsub, elem_of_cons; by left).
    apply list_elem_of_fmap in Hc as ([c' a] & -> & Hin). simpl in *.
    destruct IH as (refs & E & HF).
    { intros x Hx. apply Hsub, elem_of_cons. by right. }
    exists (Field c' a :: refs). split.
    + cbn [result_mapM]. unfold resolve in *.
      rewrite (resolve_declared _ _ a) by done. simpl. by rewrite E.
    + constructor; [by exists a | done].
Qed.

Lemma declared_affinity fields c a a' :
  wf_fields fields → (c, a) ∈ fields → (c, a') ∈ fields → a = a'.
Proof.
  intros Hwf H1 H2.
  pose proof (resolve_declared _ _ _ Hwf H1) as E1.
  pose proof (resolve_declared _ _ _ Hwf H2) as E2. congruence.
Qed.

(** The value an insert gives a declared field is the one the record lists
    under the field's name. *)
Lemma assigned_record fields (columns : list string) refs (values : list value) c a :
  wf_fields fields → (c, a) ∈ fields →
  Forall2 (λ c ref, ∃ a, ref = Field c a ∧ (c, a) ∈ fields) columns refs →
  assigned refs values (Field c a) = record_of columns values !! c.
Proof.
  intros Hwf Hin HF. unfold assigned, record_of. revert values.
  induction HF as [|c' ref columns refs (a' & -> & Hin') HF IH]; intros values.
  - done.
  - destruct values as [|v values]; [done|]. simpl.
    destruct (decide (c' = c)) as [->|Hne].
    + rewrite (declared_affinity _ _ _ _ Hwf Hin' Hin).
      rewrite bool_decide_eq_true_2 by done. simpl. by rewrite lookup_insert_eq.
    + rewrite bool_decide_eq_false_2 by congruence.
      rewrite lookup_insert_ne by done. apply IH.
Qed.

Lemma find_none_all {A : Type} (p : A → bool) (l : list A) :
  Forall (λ x, p x = false) l → List.find p l = None.
Proof. induction 1 as [|x l Hx _ IH]; simpl; [done|]. by rewrite Hx. Qed.

Lemma assigned_rowid_none refs (values : list value) :
  RowId ∉ refs → assigned_rowid refs values = None.
Proof.
  intros Hnot. unfold assigned_rowid. rewrite find_none_all; [done|].
  apply Forall_forall. intros [ref v] Hin. simpl.
  apply bool_decide_eq_false_2. intros ->. apply Hnot.
  apply elem_of_reverse_2 in Hin. rewrite reverse_involutive in Hin.
  by apply elem_of_zip_l in Hin.
Qed.

Lemma new_cells_lookup fields refs (values : list value) c a :
  wf_fields fields → (c, a) ∈ fields →
  new_cells fields refs values !! c = Some (stored a (assigned refs values (Field c a))).
Proof.
  intros Hwf Hin. unfold new_cells.
  apply elem_of_list_to_map_1.
  - rewrite <- list_fmap_compose.
    unfold wf_fields in Hwf. rewrite fmap_cons in Hwf.
    apply NoDup_cons in Hwf as [_ Hnd].
    apply NoDup_fmap_1 in Hnd.
    erewrite Forall_fmap_ext_1; [exact Hnd|]. apply Forall_forall. by intros [].
  - apply list_elem_of_fmap. by exists (c, a).
Qed.

(** The row that [SELECT *] returns for a freshly inserted row. *)
Lemma select_new_row fields (columns : list string) refs (values : list value) i :
  wf_fields fields →
  Forall2 (λ c ref, ∃ a, ref = Field c a ∧ (c, a) ∈ fields) columns refs →
  select_row fields {| rid := i; cells := new_cells fields refs values |}
  = VInt i :: ((λ f, stored f.2 (record_of columns values !! f.1)) <$> fields).
Proof.
  intros Hwf HF. unfold select_row. simpl. f_equal.
  apply Forall_fmap_ext_1, Forall_forall. intros [c a] Hin. simpl.
  unfold cell. simpl. rewrite (new_cells_lookup _ _ _ _ a) by done. simpl.
  by rewrite (assigned_record fields columns).
Qed.

End InsertFacts.

Section InsertThenFetch.
Context `{Host}.

Lemma get_df_lookup (table : string) (d : db) (t : table_state) :
  d !! lower table = Some t →
  get_df table d = Done (frame_of t) d.
Proof.
  intros E. unfold get_df, reading, read_sql_query_select_all, get_table.
  by rewrite E.
Qed.

(** An insert that lists declared fields only adds one row, last, under the
    identifier the store chooses. *)
Lemma add_record_declared (table : string) (cols : list string) (values : list value)
    (d : db) (t : table_state) :
  d !! lower table = Some t →
  wf_fields (tfields t) →
  unsaturated t →
  cols ≠ [] →
  cols ⊆ (tfields t).*1 →
  length values = length cols →
  forallb bindable values = true →
  ∃ i refs,
    Forall (λ j, j < i) (ids t) ∧
    Forall2 (λ c ref, ∃ a, ref = Field c a ∧ (c, a) ∈ tfields t) cols refs ∧
    add_record table cols values d
    = Done () (put_rows table t
                 (trows t ++ [{| rid := i; cells := new_cells (tfields t) refs values |}]) d).
Proof.
  intros E Hwf Hsat Hne Hsub Hlen Hbind.
  destruct (next_rowid_unsaturated _ Hsat) as (i & Hnext & Hlt).
  destruct (resolve_all_declared _ _ Hwf Hsub) as (refs & Hrefs & HF).
  exists i, refs. split; [done|]. split; [done|].
  unfold add_record, run_sql, execute, get_table. rewrite E. simpl.
  rewrite bool_decide_eq_false_2 by done. rewrite Hrefs. simpl.
  rewrite bool_decide_eq_false_2 by lia.
  rewrite bool_decide_eq_false_2 by lia.
  unfold bind_params. rewrite Hbind. simpl.
  assert (RowId ∉ refs) as Hnot.
  { intros Hin. eapply list_elem_of_lookup in Hin as [n Hn].
    destruct (Forall2_lookup_r _ _ _ _ _ HF Hn) as (c & _ & a & ? & _). done. }
  unfold insert_rowid. rewrite assigned_rowid_none by done. simpl.
  unfold ids in *. rewrite Hnext. simpl.
  by rewrite insert_row_last.
Qed.

Lemma fields_of_record_stored (fields : list (string * affinity))
    (record : gmap string value) :
  fields_of_record fields record ((λ fa, stored fa.2 (record !! fa.1)) <$> fields).
Proof.
  unfold fields_of_record. apply Forall2_fmap_r, Forall_Forall2_diag, Forall_forall.
  intros [c a] _. simpl. destruct (record !! c) as [v|]; simpl; [|done].
  apply typed_as_affinity.
Qed.

(** C1 (as amended). For every table and every list of declared columns with
    matching values (table and columns named by identifiers),
    [add_record] raises nothing and touches no other table, and [get_df]
    then returns the rows it returned before, in the same order, followed
    by exactly one new row.  The identifier of the new
    row is the one the store chooses, greater than all in use.  Each other
    field of the new row holds the listed value as its column types it: the
    value itself when it is of the declared type, NULL when the column is
    not listed.  The cells that pandas makes of the former rows are the
    same as before whenever the new row leaves the dtype of every column as
    it was. *)
Theorem add_record_then_get_df (table : string) (cols : list string) (values : list value)
    (d : db) (t : table_state) :
  identifier table →
  Forall identifier cols →
  d !! lower table = Some t →
  wf_fields (tfields t) →
  unsaturated t →
  cols ≠ [] →
  NoDup cols →
  cols ⊆ (tfields t).*1 →
  length values = length cols →
  forallb bindable values = true →
  ∃ f f' d' i news,
    get_df table d = Done f d ∧
    add_record table cols values d = Done () d' ∧
    (∀ k, k ≠ lower table → d' !! k = d !! k) ∧
    get_df table d' = Done f' d' ∧
    next_rowid (ids t) = Some i ∧
    Forall (λ j, j < i) (ids t) ∧
    fields_of_record (tfields t) (record_of cols values) news ∧
    columns f' = columns f ∧
    data f' = data f ++ [VInt i :: news] ∧
    (dtypes f' = dtypes f →
     df_cells f' = df_cells f ++ [zip_with pandas_cell (dtypes f) (VInt i :: news)]).
Proof.
  intros _ _ E Hwf Hsat Hne _ Hsub Hlen Hbind.
  destruct (add_record_declared table cols values d t) as (i & refs & Hlt & HF & Hadd);
    try done.
  destruct (next_rowid_unsaturated _ Hsat) as (i' & Hnext & Hlt').
  assert (i' = i) as ->.
  { unfold add_record, run_sql, execute, get_table in Hadd. rewrite E in Hadd.
    simpl in Hadd. rewrite bool_decide_eq_false_2 in Hadd by done.
    destruct (resolve_all_declared _ _ Hwf Hsub) as (refs' & Hrefs & HF').
    rewrite Hrefs in Hadd. simpl in Hadd.
    rewrite !bool_decide_eq_false_2 in Hadd by lia.
    unfold bind_params in Hadd. rewrite Hbind in Hadd. simpl in Hadd.
    assert (RowId ∉ refs') as Hnot.
    { intros Hin. eapply list_elem_of_lookup in Hin as [n Hn].
      destruct (Forall2_lookup_r _ _ _ _ _ HF' Hn) as (c & _ & a & ? & _). done. }
    unfold insert_rowid in Hadd. rewrite assigned_rowid_none in Hadd by done.
    simpl in Hadd. unfold ids in *. rewrite Hnext in Hadd. simpl in Hadd.
    rewrite insert_row_last in Hadd by done.
    injection Hadd as Hadd. apply (f_equal (λ d0 : db, rows_of d0 (lower table))) in Hadd.
    unfold rows_of in Hadd. rewrite !put_rows_lookup in Hadd. simpl in Hadd.
    apply app_inj_tail in Hadd as [_ Hadd]. by injection Hadd. }
  eexists (frame_of t), _, _, i, _.
  split; [by apply get_df_lookup|].
  split; [exact Hadd|].
  split; [intros k Hk; by apply put_rows_lookup_ne|].
  split; [apply get_df_lookup, put_rows_lookup|].
  split; [done|]. split; [done|].
  split; [apply fields_of_record_stored|].
  split; [done|].
  assert (data (frame_of {| tfields := tfields t;
                            trows := trows t ++
                              [{| rid := i; cells := new_cells (tfields t) refs values |}] |})
          = data (frame_of t) ++
            [VInt i :: ((λ fa, stored fa.2 (record_of cols values !! fa.1)) <$> tfields t)])
    as Hdata.
  { unfold frame_of. simpl. rewrite fmap_app. simpl.
    by rewrite (select_new_row _ cols). }
  split; [exact Hdata|].
  intros Hdt. unfold df_cells. rewrite Hdt, Hdata, fmap_app. done.
Qed.

End InsertThenFetch.

(** ** Deletion *)

Section DeleteFacts.
Context `{Host}.

Lemma matches_int (i : Z) (r : row) : matches (VInt i) r = bool_decide (i = rid r).
Proof. done. Qed.

Lemma filter_all {A : Type} (p : A → bool) (l : list A) :
  Forall (λ x, p x = true) l → List.filter p l = l.
Proof. induction 1 as [|x l Hx _ IH]; simpl; [done|]. by rewrite Hx, IH. Qed.

Lemma delete_absent (i : Z) (rows : list row) :
  i ∉ rid <$> rows → List.filter (λ r, negb (matches (VInt i) r)) rows = rows.
Proof.
  intros Hnot. apply filter_all, Forall_forall. intros r Hr.
  rewrite matches_int. apply negb_true_iff, bool_decide_eq_false_2.
  intros ->. apply Hnot. apply list_elem_of_fmap. by exists r.
Qed.

Lemma delete_at_most_one (i : Z) (rows : list row) :
  NoDup (rid <$> rows) →
  (length rows ≤ S (length (List.filter (λ r, negb (matches (VInt i) r)) rows)))%nat.
Proof.
  induction rows as [|r rows IH]; simpl; [lia|].
  intros [Hr Hnd]%NoDup_cons. rewrite matches_int.
  case_bool_decide as E; simpl.
  - subst i. rewrite delete_absent by done. lia.
  - specialize (IH Hnd). lia.
Qed.

Lemma delete_record_lookup (table : string) (i : Z) (d : db) (t : table_state) :
  d !! lower table = Some t → in_int64 i = true →
  delete_record table (VInt i) d
  = Done () (put_rows table t (List.filter (λ r, negb (matches (VInt i) r)) (trows t)) d).
Proof.
  intros E Hi. unfold delete_record, run_sql, execute, get_table. rewrite E. simpl.
  unfold bind_params. simpl. by rewrite Hi.
Qed.

(** C4. [delete_record] raises nothing, leaves the other tables alone and
    removes from the table exactly the rows whose identifier is the given
    one: at most one row, and none (the store is left as it was, the row
    count included) when the identifier is not in use. *)
Theorem delete_record_at_most_one (table : string) (i : Z) (d : db) (t : table_state) :
  d !! lower table = Some t →
  NoDup (ids t) →
  in_int64 i = true →
  ∃ d' t',
    delete_record table (VInt i) d = Done () d' ∧
    d' !! lower table = Some t' ∧
    tfields t' = tfields t ∧
    trows t' = List.filter (λ r, negb (bool_decide (rid r = i))) (trows t) ∧
    (length (trows t) ≤ S (length (trows t')))%nat ∧
    (∀ k, k ≠ lower table → d' !! k = d !! k) ∧
    (i ∉ ids t → d' = d ∧ length (trows t') = length (trows t)).
Proof.
  intros E Hnd Hi. eexists _, _.
  split; [by apply delete_record_lookup|].
  split; [apply put_rows_lookup|]. simpl.
  split; [done|]. split.
  { induction (trows t) as [|r rows IH]; simpl; [done|].
    rewrite matches_int, IH.
    by destruct (decide (i = rid r)) as [->|?];
      [rewrite !bool_decide_eq_true_2 | rewrite !bool_decide_eq_false_2]. }
  split; [by apply delete_at_most_one|].
  split; [intros k Hk; by apply put_rows_lookup_ne|].
  intros Hnot. unfold ids in Hnot. rewrite delete_absent by done.
  split; [by apply put_rows_same | done].
Qed.

(** C9. Deleting a row of [students] raises nothing and leaves the tables
    that refer to students ([attendance], [fees], [exams], [library]) as
    they were, rows that name the deleted student included. *)
Theorem delete_student_keeps_dependents (i : Z) (d : db) (ts : table_state) :
  d !! "students" = Some ts →
  in_int64 i = true →
  ∃ d',
    delete_record "students" (VInt i) d = Done () d' ∧
    d' !! "attendance" = d !! "attendance" ∧
    d' !! "fees" = d !! "fees" ∧
    d' !! "exams" = d !! "exams" ∧
    d' !! "library" = d !! "library" ∧
    (∀ k, k ≠ "students" → rows_of d' k = rows_of d k).
Proof.
  intros E Hi. eexists. split; [by apply (delete_record_lookup "students")|].
  repeat split; try (by apply put_rows_lookup_ne).
  intros k Hk. unfold rows_of. by rewrite put_rows_lookup_ne.
Qed.

End DeleteFacts.

(** ** Update *)

Section UpdateFacts.
Context `{Host}.

Lemma put_rows_put_rows (table : string) (t t' : table_state) (rows rows' : list row) (d : db) :
  tfields t' = tfields t →
  put_rows table t' rows' (put_rows table t rows d) = put_rows table t rows' d.
Proof. intros E. unfold put_rows. by rewrite insert_insert_eq, E. Qed.

Lemma supplied_cons_empty (f : string) (pairs : list (string * string)) :
  supplied ((f, "") :: pairs) = supplied pairs.
Proof. unfold supplied. by rewrite filter_cons_False by (simpl; auto). Qed.

Lemma supplied_cons (f u : string) (pairs : list (string * string)) :
  u ≠ "" → supplied ((f, u) :: pairs) = <[f := u]> (supplied pairs).
Proof. intros Hu. unfold supplied. by rewrite filter_cons_True by done. Qed.

Lemma supplied_not_listed (f : string) (pairs : list (string * string)) :
  f ∉ pairs.*1 → supplied pairs !! f = None.
Proof.
  intros Hnot. unfold supplied. apply not_elem_of_list_to_map_1.
  intros Hin. apply Hnot.
  apply list_elem_of_fmap in Hin as (p & -> & Hp).
  apply list_elem_of_filter in Hp as [_ Hp].
  apply list_elem_of_fmap. by exists p.
Qed.

Lemma update_loop_all_empty (table : string) (record_id : Z)
    (pairs : list (string * string)) (d : db) :
  Forall (λ p, p.2 = "") pairs → update_loop table record_id pairs d = Done () d.
Proof.
  induction 1 as [|[f u] pairs Hu _ IH]; [done|]. simpl in Hu. subst u.
  simpl. unfold script_bind. simpl. exact IH.
Qed.

(** One executed [UPDATE] of a declared field. *)
Lemma update_statement (table f u : string) (a : affinity) (record_id : Z)
    (d : db) (t : table_state) :
  d !! lower table = Some t →
  wf_fields (tfields t) →
  (f, a) ∈ tfields t →
  in_int64 record_id = true →
  run_sql (UpdateSetWhereId table f) [VText u; VInt record_id] d
  = Done () (put_rows table t
               (update_field f a (VText u) (VInt record_id) (trows t)) d).
Proof.
  intros E Hwf Hin Hi. unfold run_sql, execute, get_table. rewrite E. simpl.
  unfold resolve. rewrite (resolve_declared _ _ a) by done. simpl.
  unfold bind_params. simpl. by rewrite Hi.
Qed.

Lemma update_loop_rows (table : string) (record_id : Z) (pairs : list (string * string)) :
  in_int64 record_id = true →
  NoDup pairs.*1 →
  ∀ (d : db) (t : table_state),
    d !! lower table = Some t →
    wf_fields (tfields t) →
    pairs.*1 ⊆ (tfields t).*1 →
    ∃ rows',
      update_loop table record_id pairs d = Done () (put_rows table t rows' d) ∧
      Forall2 (row_updated (tfields t) record_id pairs) (trows t) rows'.
Proof.
  intros Hi. induction pairs as [|[f u] pairs IH]; intros Hnd d t E Hwf Hsub.
  - exists (trows t). split.
    + simpl. unfold script_ret. by rewrite put_rows_same.
    + apply Forall_Forall2_diag, Forall_forall. intros r _.
      split; [done|]. split; [done|]. intros _ c.
      unfold supplied. simpl. by rewrite lookup_empty.
  - simpl in Hnd. apply NoDup_cons in Hnd as [Hf Hnd].
    assert (pairs.*1 ⊆ (tfields t).*1) as Hsub'.
    { intros x Hx. apply Hsub. simpl. apply elem_of_cons. by right. }
    destruct (decide (u = "")) as [->|Hu].
    + destruct (IH Hnd d t E Hwf Hsub') as (rows' & Hrun & HR).
      exists rows'. split.
      * simpl. unfold script_bind. simpl. exact Hrun.
      * eapply Forall2_impl; [exact HR|]. intros r r' (? & ? & Hc).
        split; [done|]. split; [done|]. intros Hr c.
        rewrite supplied_cons_empty. by apply Hc.
    + assert (f ∈ (tfields t).*1) as Hfin.
      { apply Hsub. simpl. apply elem_of_cons. by left. }
      apply list_elem_of_fmap in Hfin as ([f' a] & -> & Hfa). simpl in *.
      set (rows1 := update_field f' a (VText u) (VInt record_id) (trows t)).
      set (t1 := {| tfields := tfields t; trows := rows1 |}).
      destruct (IH Hnd (put_rows table t rows1 d) t1) as (rows' & Hrun & HR);
        [apply put_rows_lookup | done | done |].
      exists rows'. split.
      * unfold script_bind, when. rewrite bool_decide_eq_true_2 by done.
        rewrite (update_statement _ _ _ a _ _ t) by done.
        fold rows1. rewrite Hrun. by rewrite put_rows_put_rows.
      * simpl in HR. subst rows1. unfold update_field in HR.
        rewrite Forall2_fmap_l in HR.
        eapply Forall2_impl; [exact HR|]. intros r r'. simpl.
        rewrite matches_int. intros (Hid & Hother & Hc).
        case_bool_decide as Hm.
        -- simpl in Hid. split; [done|]. split; [intros; congruence|].
           intros _ c. rewrite supplied_cons by done.
           specialize (Hc (eq_sym Hm) c).
           destruct (decide (f' = c)) as [<-|Hne].
           ++ rewrite lookup_insert_eq.
              rewrite supplied_not_listed in Hc by done.
              exists a. split; [done|]. rewrite Hc.
              unfold cell, set_cell. simpl. rewrite lookup_insert_eq. simpl.
              split; [apply typed_as_affinity | apply apply_affinity_text_not_null].
           ++ rewrite lookup_insert_ne by done.
              destruct (supplied pairs !! c) as [u'|]; [done|].
              rewrite Hc. unfold cell, set_cell. simpl.
              by rewrite lookup_insert_ne.
        -- split; [done|]. split; [done|]. intros Hr. congruence.
Qed.

End UpdateFacts.

Section UpdateTheorem.
Context `{Host}.

Lemma row_updated_absent (fields : list (string * affinity)) (record_id : Z)
    (pairs : list (string * string)) (rows rows' : list row) :
  record_id ∉ rid <$> rows →
  Forall2 (row_updated fields record_id pairs) rows rows' → rows' = rows.
Proof.
  intros Hnot HR. induction HR as [|r r' rows rows' (_ & Hr & _) _ IH]; [done|].
  rewrite fmap_cons in Hnot. apply not_elem_of_cons in Hnot as [Hne Hnot].
  rewrite Hr by done. by rewrite IH.
Qed.

(** C2. The update of the generic view (on a table and fields named by
    identifiers) writes, in the row whose identifier is the target, exactly
    the fields for which a non-empty text is supplied and leaves every other field of that row, every other row and
    every other table as they were.  A written field holds the supplied
    text as its column types it: the text itself in a TEXT column, the
    integer for a decimal text in an INTEGER column, the text itself in a
    numeric column when it is not a number, and never NULL.  With only
    empty texts, or with an identifier that no row has, the store is left
    as it was and nothing is raised. *)
Theorem update_writes_exactly_supplied (table : string) (record_id : Z)
    (pairs : list (string * string)) (d : db) (t : table_state) :
  identifier table →
  Forall identifier pairs.*1 →
  d !! lower table = Some t →
  wf_fields (tfields t) →
  NoDup pairs.*1 →
  pairs.*1 ⊆ (tfields t).*1 →
  in_int64 record_id = true →
  ∃ d' t',
    update_loop table record_id pairs d = Done () d' ∧
    d' !! lower table = Some t' ∧
    tfields t' = tfields t ∧
    Forall2 (row_updated (tfields t) record_id pairs) (trows t) (trows t') ∧
    (∀ k, k ≠ lower table → d' !! k = d !! k) ∧
    (Forall (λ p, p.2 = "") pairs → d' = d) ∧
    (record_id ∉ ids t → d' = d).
Proof.
  intros _ _ E Hwf Hnd Hsub Hi.
  destruct (update_loop_rows table record_id pairs Hi Hnd d t E Hwf Hsub)
    as (rows' & Hrun & HR).
  eexists _, _. split; [exact Hrun|].
  split; [apply put_rows_lookup|]. simpl.
  split; [done|]. split; [done|].
  split; [intros k Hk; by apply put_rows_lookup_ne|].
  split.
  - intros Hempty. rewrite update_loop_all_empty in Hrun by done.
    by injection Hrun as <-.
  - intros Hnot. rewrite (row_updated_absent _ _ _ _ _ Hnot HR).
    by apply put_rows_same.
Qed.

End UpdateTheorem.

(** ** Search *)

Section SearchFacts.
Context `{Host}.

Lemma append_empty (s : string) : "" +:+ s = s.
Proof. reflexivity. Qed.

Lemma append_String (c : ascii) (s s' : string) : String c s +:+ s' = String c (s +:+ s').
Proof. reflexivity. Qed.

Lemma parse_plain (q : string) :
  plain q → parse_simple q = Some (Lit <$> list_ascii_of_string q).
Proof.
  unfold plain. induction q as [|c q IH]; simpl; [done|].
  intros [Hc Hq]%Forall_cons.
  rewrite bool_decide_eq_false_2.
  - rewrite Hc, IH by done. done.
  - intros ->. done.
Qed.

Lemma match_here_literal (q s : string) :
  match_here (Lit <$> list_ascii_of_string q) s = true
  ↔ ∃ mid post, s = mid +:+ post ∧ ci_equal q mid = true.
Proof.
  revert s. induction q as [|c q IH]; intros s; simpl.
  - split; [|done]. intros _. by exists "", s.
  - destruct s as [|d s].
    + split; [done|]. intros (mid & post & E & Hm).
      destruct mid; [done|]. by rewrite append_String in E.
    + simpl. rewrite andb_true_iff, IH. split.
      * intros (Hcd & mid & post & -> & Hm).
        exists (String d mid), post. split; [done|]. simpl. by rewrite Hcd.
      * intros (mid & post & E & Hm). destruct mid as [|d' mid]; [done|].
        rewrite append_String in E. injection E as -> ->.
        simpl in Hm. apply andb_true_iff in Hm as [? ?]. eauto.
Qed.

Lemma match_anywhere_spec (atoms : list atom) (s : string) :
  match_anywhere atoms s = true
  ↔ ∃ pre rest, s = pre +:+ rest ∧ match_here atoms rest = true.
Proof.
  induction s as [|d s IH].
  - cbn [match_anywhere]. rewrite orb_false_r. split.
    + intros Hm. by exists "", "".
    + intros (pre & rest & E & Hm). destruct pre.
      * rewrite append_empty in E. by subst.
      * by rewrite append_String in E.
  - cbn [match_anywhere]. rewrite orb_true_iff, IH. split.
    + intros [Hm | (pre & rest & -> & Hm)].
      * by exists "", (String d s).
      * by exists (String d pre), rest.
    + intros (pre & rest & E & Hm). destruct pre as [|d' pre].
      * rewrite append_empty in E. subst. by left.
      * rewrite append_String in E. injection E as -> ->. right. eauto.
Qed.

(** On a plain query the regular expression search is the case-insensitive
    test for a substring. *)
Lemma match_anywhere_contains (q s : string) :
  match_anywhere (Lit <$> list_ascii_of_string q) s = true ↔ ci_contains q s.
Proof.
  rewrite match_anywhere_spec. unfold ci_contains. split.
  - intros (pre & rest & -> & (mid & post & -> & Hm)%match_here_literal). eauto.
  - intros (pre & mid & post & -> & Hm). exists pre, (mid +:+ post).
    split; [done|]. apply match_here_literal. eauto.
Qed.

Lemma mapM_total {A B : Type} (g : A → B) (p : A → result B) (l : list A) :
  (∀ a, p a = Ok (g a)) → result_mapM p l = Ok (g <$> l).
Proof.
  intros Hp. induction l as [|a l IH]; simpl; [done|]. by rewrite Hp, IH.
Qed.

Lemma select_rows_total {A : Type} (keep : A → bool) (p : A → result bool) (l : list A) :
  (∀ a, p a = Ok (keep a)) → select_rows p l = Ok (List.filter keep l).
Proof.
  intros Hp. induction l as [|a l IH]; simpl; [done|]. rewrite Hp, IH. simpl.
  by destruct (keep a).
Qed.

Lemma existsb_fmap {A : Type} (g : A → bool) (l : list A) :
  existsb id (g <$> l) = existsb g l.
Proof. induction l as [|a l IH]; [done|]. rewrite fmap_cons. simpl. by rewrite IH. Qed.

Lemma row_contains_plain (q : string) (f : frame) (r : list value) :
  plain q →
  row_contains q f r
  = Ok (existsb (match_anywhere (Lit <$> list_ascii_of_string q)) (astype_str f r)).
Proof.
  intros Hq. unfold row_contains.
  rewrite (mapM_total (match_anywhere (Lit <$> list_ascii_of_string q))).
  - simpl. by rewrite existsb_fmap.
  - intros s. unfold re_search. by rewrite parse_plain.
Qed.

Lemma existsb_contains (q : string) (strs : list string) :
  existsb (match_anywhere (Lit <$> list_ascii_of_string q)) strs = true
  ↔ ∃ s, s ∈ strs ∧ ci_contains q s.
Proof.
  rewrite existsb_exists. split.
  - intros (s & Hin & Hm). exists s. split; [by apply list_elem_of_In|].
    by apply match_anywhere_contains.
  - intros (s & Hin & Hm). exists s. split; [by apply list_elem_of_In|].
    by apply match_anywhere_contains.
Qed.

(** C3 (as amended). For every frame and every query without regular
    expression operators, the search displays exactly the rows with a cell
    whose string form contains the query case-insensitively, in the order
    of the frame; nothing when no cell does; the whole frame when the query
    is empty. *)
Theorem search_plain_query (q : string) (f : frame) :
  plain q →
  ∃ shown,
    shown_rows q f = Ok shown ∧
    search_spec q f shown ∧
    (q ≠ "" →
     (∀ r s, r ∈ data f → s ∈ astype_str f r → ¬ ci_contains q s) →
     shown = []).
Proof.
  intros Hq. unfold shown_rows, search_spec.
  destruct (decide (q = "")) as [->|Hne].
  - exists (data f).
    rewrite bool_decide_eq_false_2 by (intros Hne; by apply Hne).
    rewrite bool_decide_eq_true_2 by done. by repeat split.
  - rewrite bool_decide_eq_true_2, bool_decide_eq_false_2 by done.
    set (keep := λ r, existsb (match_anywhere (Lit <$> list_ascii_of_string q))
                        (astype_str f r)).
    exists (List.filter keep (data f)). split; [|split].
    + unfold search_rows. apply select_rows_total. intros r.
      by apply row_contains_plain.
    + exists keep. split; [|done]. intros r. apply existsb_contains.
    + intros _ Hnone. induction (data f) as [|r rows IH]; simpl; [done|].
      destruct (keep r) eqn:E.
      * apply existsb_contains in E as (s & Hin & Hc).
        destruct (Hnone r s); [apply elem_of_cons; by left | done | done].
      * apply IH. intros r' s Hr'. apply Hnone, elem_of_cons. by right.
Qed.

End SearchFacts.

(** ** The dashboard *)

Section DashboardFacts.
Context `{Host}.

Lemma tables_wf (name : string) (fields : list (string * affinity)) :
  (name, fields) ∈ tables → wf_fields fields.
Proof.
  unfold tables. intros Hin.
  repeat (apply elem_of_cons in Hin as [[= -> ->] | Hin];
          [unfold wf_fields; apply (bool_decide_unpack _); by vm_compute|]).
  by apply not_elem_of_nil in Hin.
Qed.

Lemma tables_declared (name : string) (fields fields' : list (string * affinity)) :
  (name, fields) ∈ tables → (name, fields') ∈ tables → fields = fields'.
Proof.
  intros Hin Hin'.
  assert (NoDup tables.*1) as Hnd by (apply (bool_decide_unpack _); by vm_compute).
  pose proof (elem_of_list_to_map_1 (M := gmap string) _ _ _ Hnd Hin) as E.
  pose proof (elem_of_list_to_map_1 (M := gmap string) _ _ _ Hnd Hin') as E'.
  congruence.
Qed.

Lemma students_fields (fields : list (string * affinity)) :
  ("students", fields) ∈ tables →
  fields = [("name", TEXT); ("class", TEXT); ("age", INTEGER)].
Proof.
  intros Hin. apply (tables_declared "students"); [done|].
  unfold tables. apply elem_of_cons. by left.
Qed.

Lemma attendance_fields (fields : list (string * affinity)) :
  ("attendance", fields) ∈ tables →
  fields = [("student_id", INTEGER); ("date", TEXT); ("status", TEXT)].
Proof.
  intros Hin. apply (tables_declared "attendance"); [done|].
  unfold tables. do 2 (apply elem_of_cons; right). apply elem_of_cons. by left.
Qed.


Lemma dashboard_eval (d : db) (ts tt tl tf : table_state) :
  d !! "students" = Some ts →
  d !! "teachers" = Some tt →
  d !! "library" = Some tl →
  d !! "fees" = Some tf →
  dashboard d
  = match fees_metric tf with
    | Ok v => Done (metrics_of ts tt tl v) d
    | Err e => Raised e d
    end.
Proof.
  intros Es Et El Ef. unfold dashboard, script_bind.
  rewrite (get_df_lookup "students" d ts) by done.
  rewrite (get_df_lookup "teachers" d tt) by done.
  rewrite (get_df_lookup "library" d tl) by done.
  rewrite (get_df_lookup "fees" d tf) by done.
  unfold fees_metric, metrics_of.
  destruct (df_empty (frame_of tf)); simpl.
  - unfold script_ret, df_len. simpl. by rewrite !length_fmap.
  - unfold reading. rewrite (get_df_lookup "fees" d tf) by done.
    destruct (df_getitem "paid" (frame_of tf)) as [col|e]; simpl; [|done].
    destruct (series_sum col) as [v|e]; simpl; [|done].
    unfold script_ret, df_len. simpl. by rewrite !length_fmap.
Qed.

End DashboardFacts.

Section DashboardTheorems.
Context `{Host}.







End DashboardTheorems.

Section AddStudent.
Context `{Host}.

(** C6. Inserting one row into [students] (for instance name Aisha, class
    5A, age 10) raises the dashboard's Total Students by exactly one and
    leaves Total Teachers, Books Issued and Total Fees Paid as they were. *)
Theorem add_student_counts_once (v1 v2 v3 : value) (d : db) (ts tt tl tf : table_state)
    (ms : list (string * value)) :
  d !! "students" = Some ts →
  d !! "teachers" = Some tt →
  d !! "library" = Some tl →
  d !! "fees" = Some tf →
  ("students", tfields ts) ∈ tables →
  unsaturated ts →
  forallb bindable [v1; v2; v3] = true →
  dashboard d = Done ms d →
  ∃ d' n teachers books paid,
    add_record "students" ["name"; "class"; "age"] [v1; v2; v3] d = Done () d' ∧
    ms = [("Total Students", VInt n); ("Total Teachers", teachers);
          ("Books Issued", books); ("Total Fees Paid", paid)] ∧
    dashboard d'
    = Done [("Total Students", VInt (n + 1)); ("Total Teachers", teachers);
            ("Books Issued", books); ("Total Fees Paid", paid)] d'.
Proof.
  intros Es Et El Ef Hdecl Hsat Hbind Hdash.
  pose proof (tables_wf _ _ Hdecl) as Hwf.
  destruct (add_record_declared "students" ["name"; "class"; "age"] [v1; v2; v3] d ts)
    as (i & refs & _ & _ & Hadd); try done.
  { rewrite (students_fields _ Hdecl). done. }
  rewrite (dashboard_eval d ts tt tl tf) in Hdash by done.
  destruct (fees_metric tf) as [paid|e] eqn:Efees; [|done].
  injection Hdash as <-.
  eexists _, _, _, _, _. split; [exact Hadd|]. split; [done|].
  erewrite dashboard_eval;
    [| apply (put_rows_lookup "students")
     | by rewrite put_rows_lookup_ne
     | by rewrite put_rows_lookup_ne
     | by rewrite put_rows_lookup_ne ].
  rewrite Efees. unfold metrics_of. simpl. rewrite length_app. simpl.
  repeat f_equal. lia.
Qed.

End AddStudent.

(** ** The Attendance module *)

Section AttendanceFacts.
Context `{Host}.

Lemma create_keeps (table : string) (schema : list (string * affinity)) (d : db)
    (k : string) (t : table_state) :
  d !! k = Some t →
  ∃ d', run_sql (CreateIfNotExists table schema) [] d = Done () d' ∧ d' !! k = Some t.
Proof.
  intros E. unfold run_sql, execute.
  destruct (d !! lower table) eqn:El.
  - by exists d.
  - eexists. split; [done|]. rewrite lookup_insert_ne; [done|]. congruence.
Qed.

Lemma create_tables_keeps (l : list (string * list (string * affinity))) (d : db)
    (k : string) (t : table_state) :
  d !! k = Some t →
  ∃ d', create_tables l d = Done () d' ∧ d' !! k = Some t.
Proof.
  revert d. induction l as [|[table schema] l IH]; intros d E.
  - by exists d.
  - destruct (create_keeps table schema d k t E) as (d1 & E1 & Hk).
    destruct (IH d1 Hk) as (d' & E' & Hk').
    exists d'. split; [|done]. simpl. unfold script_bind. by rewrite E1.
Qed.

(** The generic view with no button pressed and no query displays the
    table as it is and leaves the store alone. *)
Lemma crud_module_idle (title table : string) (fields labels add_cols : list string)
    (ss : session) (d : db) (t : table_state) :
  d !! lower table = Some t →
  button ss ("add_" +:+ table) = false →
  text_input ss ("search_" +:+ table) = "" →
  button ss ("del_" +:+ table) = false →
  button ss ("upd_" +:+ table) = false →
  crud_module title table fields labels add_cols ss d = Done (data (frame_of t)) d.
Proof.
  intros E Hadd Hsearch Hdel Hupd. unfold crud_module, script_bind.
  rewrite Hadd, Hsearch, Hdel, Hupd. simpl.
  rewrite (get_df_lookup table d t E). done.
Qed.

(** C7. For every student identifier and every status among Present and
    Absent, the specialised action of the Attendance module adds exactly one
    row after the existing rows of [attendance], holding the identifier, the
    current date and the status, under an identifier the store chooses; the
    generic view of the same run displays the former rows followed by the
    new one. *)
Theorem mark_attendance_appends (ss : session) (today : string) (sid : Z) (status : string)
    (d0 : db) (t : table_state) :
  d0 !! "attendance" = Some t →
  ("attendance", tfields t) ∈ tables →
  unsaturated t →
  1 ≤ sid ≤ MAX_ROWID →
  number_input ss "Student ID" = sid →
  status_options !! selectbox ss "Status" = Some status →
  button ss "Mark Attendance" = true →
  button ss "add_attendance" = false →
  text_input ss "search_attendance" = "" →
  button ss "del_attendance" = false →
  button ss "upd_attendance" = false →
  ∃ d' t' i,
    (status = "Present" ∨ status = "Absent") ∧
    Forall (λ j, j < i) (ids t) ∧
    app Attendance ss today d0
    = Done (Records (data (frame_of t) ++ [[VInt i; VInt sid; VText today; VText status]])) d' ∧
    d' !! "attendance" = Some t' ∧
    data (frame_of t')
    = data (frame_of t) ++ [[VInt i; VInt sid; VText today; VText status]].
Proof.
  intros E Hdecl Hsat Hsid Hnum Hsel Hmark Hadd Hsearch Hdel Hupd.
  pose proof (tables_wf _ _ Hdecl) as Hwf.
  pose proof (attendance_fields _ Hdecl) as Hfields.
  destruct (create_tables_keeps tables d0 "attendance" t E) as (d1 & Hcreate & E1).
  destruct (add_record_declared "attendance" ["student_id"; "date"; "status"]
              [VInt sid; VText today; VText status] d1 t)
    as (i & refs & Hlt & HF & Hins); try done.
  { rewrite Hfields. done. }
  { simpl. unfold in_int64, MIN_INT64, MAX_ROWID in *.
    rewrite andb_true_r. apply andb_true_iff. split; apply Z.leb_le; lia. }
  set (new := {| rid := i; cells := new_cells (tfields t) refs
                                      [VInt sid; VText today; VText status] |}) in *.
  assert (select_row (tfields t) new = [VInt i; VInt sid; VText today; VText status])
    as Hnew.
  { unfold new.
    rewrite (select_new_row _ ["student_id"; "date"; "status"]) by done.
    rewrite Hfields. unfold record_of. simpl.
    rewrite lookup_insert_eq.
    rewrite lookup_insert_ne, lookup_insert_eq by done.
    rewrite lookup_insert_ne, lookup_insert_ne, lookup_insert_eq by done.
    done. }
  eexists _, {| tfields := tfields t; trows := trows t ++ [new] |}, i.
  split.
  { unfold status_options in Hsel.
    destruct (selectbox ss "Status") as [|[|n]]; simplify_eq/=; auto. }
  split; [done|].
  assert (data (frame_of {| tfields := tfields t; trows := trows t ++ [new] |})
          = data (frame_of t) ++ [[VInt i; VInt sid; VText today; VText status]])
    as Hdata.
  { unfold frame_of. simpl. rewrite fmap_app. simpl. by rewrite Hnew. }
  split; [|split; [apply (put_rows_lookup "attendance")|exact Hdata]].
  unfold app, script_bind. rewrite Hcreate.
  unfold mark_attendance, when. rewrite Hmark, Hnum, Hsel. simpl.
  rewrite Z.max_r by lia. rewrite Hins.
  erewrite (crud_module_idle _ "attendance");
    [| apply (put_rows_lookup "attendance") | done..].
  unfold script_ret. by rewrite Hdata.
Qed.

End AttendanceFacts.

(** ** Runs of the script *)

Section RunFacts.
Context `{Host}.

Implicit Types (d : db) (R : db → db → Prop).

Section Along.
Context (R : db → db → Prop) `{!Reflexive R} `{!Transitive R}.

Lemma along_ret {A : Type} (a : A) : moves_along R (script_ret a).
Proof. intros d. simpl. reflexivity. Qed.

Lemma along_raise {A : Type} (e : exn) : moves_along R (raise (A := A) e).
Proof. intros d. simpl. reflexivity. Qed.

Lemma along_reading {A : Type} (f : db → result A) : moves_along R (reading f).
Proof. intros d. unfold reading. destruct (f d); simpl; reflexivity. Qed.

Lemma along_bind {A B : Type} (m : script A) (k : A → script B) :
  moves_along R m → (∀ a, moves_along R (k a)) → moves_along R (script_bind m k).
Proof.
  intros Hm Hk d. unfold script_bind. specialize (Hm d).
  destruct (m d) as [a d'|e d']; simpl in *; [|done].
  etransitivity; [exact Hm|]. apply Hk.
Qed.

Lemma along_when (b : bool) (m : script unit) :
  moves_along R m → moves_along R (when b m).
Proof. intros Hm. destruct b; [done|]. apply along_ret. Qed.

Lemma along_update_loop (table : string) (record_id : Z) (pairs : list (string * string)) :
  (∀ f u, (f, u) ∈ pairs →
     moves_along R (run_sql (UpdateSetWhereId table f) [VText u; VInt record_id])) →
  moves_along R (update_loop table record_id pairs).
Proof.
  induction pairs as [|[f u] pairs IH]; intros Hstep; simpl.
  - apply along_ret.
  - apply along_bind.
    + apply along_when, Hstep, elem_of_cons. by left.
    + intros _. apply IH. intros f' u' Hin. apply Hstep, elem_of_cons. by right.
Qed.

Lemma along_create_tables (l : list (string * list (string * affinity))) :
  (∀ table schema, moves_along R (run_sql (CreateIfNotExists table schema) [])) →
  moves_along R (create_tables l).
Proof.
  intros Hstep. induction l as [|[table schema] l IH]; simpl.
  - apply along_ret.
  - apply along_bind; [apply Hstep | intros _; apply IH].
Qed.

End Along.

End RunFacts.

Section Statements.
Context `{Host}.

Implicit Types (d : db).

Lemma rows_of_put_rows (table : string) (t : table_state) (rows : list row) d (k : string) :
  rows_of (put_rows table t rows d) k
  = if decide (k = lower table) then rows else rows_of d k.
Proof.
  unfold rows_of. case_decide as E.
  - subst k. by rewrite put_rows_lookup.
  - by rewrite put_rows_lookup_ne.
Qed.

Lemma create_rows (table : string) (schema : list (string * affinity)) d (k : string) :
  rows_of (store_of (run_sql (CreateIfNotExists table schema) [] d)) k = rows_of d k.
Proof.
  unfold run_sql, execute. simpl.
  destruct (d !! lower table) eqn:E; simpl; [done|].
  unfold rows_of. destruct (decide (k = lower table)) as [->|Hne].
  - by rewrite lookup_insert_eq, E.
  - by rewrite lookup_insert_ne.
Qed.

Lemma create_tables_same_rows (l : list (string * list (string * affinity))) d
    (k : string) :
  rows_of (store_of (create_tables l d)) k = rows_of d k.
Proof.
  revert d. induction l as [|[table schema] l IH]; intros d; [done|].
  simpl. unfold script_bind.
  pose proof (create_rows table schema d k) as Hstep.
  destruct (run_sql (CreateIfNotExists table schema) [] d) as [[] d1|e d1] eqn:E1.
  - simpl in Hstep. by rewrite IH.
  - done.
Qed.

Lemma resolved_never_rowid (fields : list (string * affinity)) (cols : list string)
    (refs : list colref) :
  Forall never_rowid cols →
  result_mapM (resolve fields) cols = Ok refs →
  RowId ∉ refs.
Proof.
  intros Hcols. revert refs.
  induction Hcols as [|c cols [Hid Hal] _ IH]; intros refs; cbn [result_mapM].
  - intros [= <-]. apply not_elem_of_nil.
  - destruct (resolve fields c) as [ref|] eqn:Ec; simpl; [|done].
    destruct (result_mapM (resolve fields) cols) as [refs'|] eqn:Er; simpl; [|done].
    intros [= <-]. apply not_elem_of_cons. split; [|by apply IH].
    intros <-. unfold resolve in Ec.
    destruct (resolve_column fields c) as [ref|] eqn:Ec'; simpl in Ec; [|done].
    injection Ec as ->. by apply (resolve_not_rowid fields c).
Qed.

Lemma insert_rows (table : string) (cols : list string) (values : list value) d (k : string) :
  Forall never_rowid cols →
  let d' := store_of (add_record table cols values d) in
  rows_of d' k = rows_of d k ∨
  ∃ r, next_rowid (rid <$> rows_of d k) = Some (rid r) ∧
       rows_of d' k = insert_row r (rows_of d k).
Proof.
  intros Hcols. unfold add_record, run_sql, execute, get_table. simpl.
  destruct (d !! lower table) as [t|] eqn:E; simpl; [|by left].
  case_bool_decide; [by left|].
  destruct (result_mapM (resolve (tfields t)) cols) as [refs|] eqn:Er; simpl; [|by left].
  case_bool_decide; [by left|]. case_bool_decide; [by left|].
  destruct (bind_params values); simpl; [|by left].
  unfold insert_rowid.
  rewrite assigned_rowid_none by (by eapply resolved_never_rowid). simpl.
  destruct (next_rowid (ids t)) as [i|] eqn:En; simpl; [|by left].
  rewrite rows_of_put_rows. case_decide as Ek; [|by left].
  right. subst k. unfold rows_of. rewrite E. eexists. split; [|done]. done.
Qed.

Lemma insert_rows_at (table : string) (cols : list string) (values : list value) d
    (k : string) :
  Forall never_rowid cols →
  let d' := store_of (add_record table cols values d) in
  rows_of d' k = rows_of d k ∨
  k = lower table ∧ row_arrives (rows_of d k) (rows_of d' k).
Proof.
  intros Hcols. unfold add_record, run_sql, execute, get_table. simpl.
  destruct (d !! lower table) as [t|] eqn:E; simpl; [|by left].
  case_bool_decide; [by left|].
  destruct (result_mapM (resolve (tfields t)) cols) as [refs|] eqn:Er; simpl; [|by left].
  case_bool_decide; [by left|]. case_bool_decide; [by left|].
  destruct (bind_params values); simpl; [|by left].
  unfold insert_rowid.
  rewrite assigned_rowid_none by (by eapply resolved_never_rowid). simpl.
  destruct (next_rowid (ids t)) as [i|] eqn:En; simpl; [|by left].
  rewrite rows_of_put_rows. case_decide as Ek; [|by left].
  right. split; [done|]. subst k. unfold rows_of. rewrite E.
  destruct (insert_row_split {| rid := i; cells := new_cells (tfields t) refs values |}
              (trows t)) as (l1 & l2 & E1 & E2).
  exists {| rid := i; cells := new_cells (tfields t) refs values |}, l1, l2.
  split; [exact En|]. by split.
Qed.

Lemma delete_rows_at (table : string) (i : Z) d (k : string) :
  let d' := store_of (delete_record table (VInt i) d) in
  rows_of d' k = rows_of d k ∨
  k = lower table ∧
  rows_of d' k = List.filter (λ r, negb (bool_decide (rid r = i))) (rows_of d k).
Proof.
  unfold delete_record, run_sql, execute, get_table. simpl.
  destruct (d !! lower table) as [t|] eqn:E; simpl; [|by left].
  destruct (bind_params [VInt i]); simpl; [|by left].
  rewrite rows_of_put_rows. case_decide as Ek; [|by left].
  right. split; [done|]. subst k. unfold rows_of. rewrite E.
  induction (trows t) as [|r rows IH]; simpl; [done|].
  rewrite IH. unfold matches at 1, id_equals. simpl.
  by destruct (decide (i = rid r)) as [->|?];
    [rewrite !bool_decide_eq_true_2 | rewrite !bool_decide_eq_false_2].
Qed.

Lemma delete_rows (table : string) (w : value) d (k : string) :
  let d' := store_of (delete_record table w d) in
  rows_of d' k = rows_of d k ∨
  rows_of d' k = List.filter (λ r, negb (matches w r)) (rows_of d k).
Proof.
  unfold delete_record, run_sql, execute, get_table. simpl.
  destruct (d !! lower table) as [t|] eqn:E; simpl; [|by left].
  destruct (bind_params [w]); simpl; [|by left].
  rewrite rows_of_put_rows. case_decide as Ek; [|by left].
  right. subst k. unfold rows_of. by rewrite E.
Qed.

Lemma update_rows (table f : string) (params : list value) d (k : string) :
  never_rowid f →
  let d' := store_of (run_sql (UpdateSetWhereId table f) params d) in
  ∃ g : row → row, (∀ r, rid (g r) = rid r) ∧ rows_of d' k = g <$> rows_of d k.
Proof.
  intros [Hid Hal]. unfold run_sql, execute, get_table. simpl.
  assert (∃ g : row → row, (∀ r, rid (g r) = rid r) ∧ rows_of d k = g <$> rows_of d k)
    as Hsame by (exists id; by rewrite list_fmap_id).
  destruct (d !! lower table) as [t|] eqn:E; simpl; [|done].
  unfold resolve.
  destruct (resolve_column (tfields t) f) as [ref|] eqn:Ef; simpl; [|done].
  destruct params as [|v [|w [|? ?]]]; simpl; try done.
  destruct (bind_params [v; w]); simpl; [|done].
  destruct ref as [|c0 a0]; [by destruct (resolve_not_rowid (tfields t) f)|]. simpl.
  rewrite rows_of_put_rows. case_decide as Ek; [|done].
  subst k. unfold rows_of. rewrite E. unfold update_field.
  eexists. split; [|done]. intros r. simpl. by destruct (matches w r).
Qed.

End Statements.

Section Modules.
Context `{Host}.
Context (R : db → db → Prop) `{!Reflexive R} `{!Transitive R}.

Lemma along_when_pressed (b : bool) (m : script unit) :
  (b = true → moves_along R m) → moves_along R (when b m).
Proof. intros Hm. destruct b; [by apply Hm | by apply along_ret]. Qed.

Lemma along_crud_module (title table : string) (fields labels add_cols : list string)
    (ss : session) :
  (button ss ("add_" +:+ table) = true →
   ∀ values, moves_along R (add_record table add_cols values)) →
  (button ss ("del_" +:+ table) = true →
   ∀ w, moves_along R (delete_record table w)) →
  (button ss ("upd_" +:+ table) = true →
   ∀ f params, f ∈ fields → moves_along R (run_sql (UpdateSetWhereId table f) params)) →
  moves_along R (crud_module title table fields labels add_cols ss).
Proof.
  intros Hadd Hdel Hupd. unfold crud_module.
  apply along_bind; [done.. | |].
  { apply along_when_pressed. intros Hb. by apply Hadd. }
  intros _. apply along_bind; [done.. | by apply along_reading |].
  intros df. apply along_bind; [done.. | by apply along_reading |].
  intros shown. apply along_bind; [done.. | |].
  { apply along_when_pressed. intros Hb. apply along_when; [done..|].
    apply along_bind; [done.. | by apply Hdel |].
    intros _. by apply along_raise. }
  intros _. apply along_bind; [done.. | | intros _; by apply along_ret].
  apply along_when_pressed. intros Hb. apply along_update_loop; [done..|].
  intros f u Hin. apply Hupd; [done|].
  by apply elem_of_zip_l in Hin.
Qed.

Lemma along_dashboard : moves_along R dashboard.
Proof.
  unfold dashboard, get_df.
  do 4 (apply along_bind; [done.. | by apply along_reading | intros ?]).
  apply along_bind; [done.. | | intros ?; by apply along_ret].
  destruct (negb _); [|by apply along_ret].
  apply along_bind; [done.. | by apply along_reading | intros ?].
  by apply along_reading.
Qed.

Lemma along_app (m : module) (ss : session) (today : string) :
  (∀ table schema, moves_along R (run_sql (CreateIfNotExists table schema) [])) →
  ((∃ key, key ∈ insert_delete_keys ∧ button ss key = true) →
   ∀ table cols values, Forall never_rowid cols →
     moves_along R (add_record table cols values)) →
  ((∃ key, key ∈ insert_delete_keys ∧ button ss key = true) →
   ∀ table w, moves_along R (delete_record table w)) →
  (∀ table f params, never_rowid f →
     moves_along R (run_sql (UpdateSetWhereId table f) params)) →
  moves_along R (app m ss today).
Proof.
  intros Hcreate Hadd Hdel Hupd.
  assert (∀ title table fields labels add_cols,
            ("add_" +:+ table) ∈ insert_delete_keys →
            ("del_" +:+ table) ∈ insert_delete_keys →
            Forall never_rowid fields → Forall never_rowid add_cols →
            moves_along R (crud_module title table fields labels add_cols ss)) as Hcrud.
  { intros title table fields labels add_cols Hka Hkd Hf Ha.
    apply along_crud_module; [done..| | |].
    - intros Hb values. apply Hadd; [|done]. by exists ("add_" +:+ table).
    - intros Hb w. apply Hdel. by exists ("del_" +:+ table).
    - intros Hb f params Hin. apply Hupd.
      rewrite Forall_forall in Hf. by apply Hf. }
  assert (∀ cols, Forall never_rowid cols ↔
                  Forall (λ c, lower c ≠ "id" ∧ lower c ∉ rowid_aliases) cols) as Hnever
    by done.
  unfold app. apply along_bind; [done.. | by apply along_create_tables |].
  intros _.
  destruct m;
    try (apply along_bind; [done.. | | intros rows; by apply along_ret];
         apply Hcrud;
         [ apply (bool_decide_unpack _); by vm_compute
         | apply (bool_decide_unpack _); by vm_compute
         | apply Hnever, (bool_decide_unpack _); by vm_compute
         | apply Hnever, (bool_decide_unpack _); by vm_compute ]).
  - apply along_bind; [done.. | apply along_dashboard | intros ms; by apply along_ret].
  - apply along_bind; [done.. | |].
    + unfold mark_attendance. apply along_when_pressed. intros Hb.
      apply Hadd.
      * exists "Mark Attendance". split; [|done].
        apply (bool_decide_unpack _). by vm_compute.
      * apply Hnever, (bool_decide_unpack _). by vm_compute.
    + intros _. apply along_bind; [done.. | | intros rows; by apply along_ret].
      apply Hcrud;
        [ apply (bool_decide_unpack _); by vm_compute
        | apply (bool_decide_unpack _); by vm_compute
        | apply Hnever, (bool_decide_unpack _); by vm_compute
        | apply Hnever, (bool_decide_unpack _); by vm_compute ].
Qed.

End Modules.

(** ** Identifiers *)

Section Identifiers.
Context `{Host}.

Implicit Types (d : db) (rows : list row).

#[local] Instance evolves_refl : Reflexive evolves.
Proof. intros d k. apply rtc_refl. Qed.

#[local] Instance evolves_trans : Transitive evolves.
Proof. intros d1 d2 d3 H12 H23 k. transitivity (rows_of d2 k); [apply H12 | apply H23]. Qed.

#[local] Instance same_ids_refl : Reflexive same_ids.
Proof. by intros d k. Qed.

#[local] Instance same_ids_trans : Transitive same_ids.
Proof. intros d1 d2 d3 H12 H23 k. by rewrite H23. Qed.

Lemma evolves_rows d d' :
  (∀ k, rows_of d' k = rows_of d k ∨ row_step (rows_of d k) (rows_of d' k)) →
  evolves d d'.
Proof.
  intros Hk k. destruct (Hk k) as [-> | Hstep]; [apply rtc_refl | by apply rtc_once].
Qed.

(** Every run changes the rows of every table by steps that keep
    identifiers: the script never writes to the rowid, and never names it
    in an insert. *)
Lemma app_evolves (m : module) (ss : session) (today : string) :
  moves_along evolves (app m ss today).
Proof.
  apply along_app; try apply _.
  - intros table schema d. apply evolves_rows. intros k. left. apply create_rows.
  - intros _ table cols values Hcols d. apply evolves_rows. intros k.
    destruct (insert_rows table cols values d k Hcols) as [E | (r & Hn & E)];
      [by left | right]. rewrite E. by constructor.
  - intros _ table w d. apply evolves_rows. intros k.
    destruct (delete_rows table w d k) as [E | E]; [by left | right].
    rewrite E. constructor.
  - intros table f params Hf d. apply evolves_rows. intros k.
    destruct (update_rows table f params d k Hf) as (g & Hg & E). right.
    rewrite E. by constructor.
Qed.

(** A run in which no inserting or deleting button is pressed leaves the
    identifiers of every table as they are. *)
Lemma app_same_ids (m : module) (ss : session) (today : string) :
  only_updates ss → moves_along same_ids (app m ss today).
Proof.
  intros Hss.
  assert (¬ ∃ key, key ∈ insert_delete_keys ∧ button ss key = true) as Hnone.
  { intros (key & Hin & Hb). unfold only_updates in Hss.
    rewrite Forall_forall in Hss. specialize (Hss key Hin). congruence. }
  apply along_app; try apply _.
  - intros table schema d k. by rewrite create_rows.
  - intros Hex. by destruct Hnone.
  - intros Hex. by destruct Hnone.
  - intros table f params Hf d k.
    destruct (update_rows table f params d k Hf) as (g & Hg & E).
    rewrite E, <- list_fmap_compose. apply Forall_fmap_ext_1, Forall_forall.
    intros r _. apply Hg.
Qed.

Lemma row_step_NoDup rows rows' :
  row_step rows rows' → NoDup (rid <$> rows) → NoDup (rid <$> rows').
Proof.
  intros [rows0 r Hnext | rows0 w | rows0 f Hf] Hnd.
  - rewrite insert_row_ids. apply NoDup_cons. split; [|done].
    by apply next_rowid_fresh.
  - by apply filter_ids_NoDup.
  - rewrite <- list_fmap_compose.
    erewrite Forall_fmap_ext_1; [exact Hnd|]. apply Forall_forall. intros r _. apply Hf.
Qed.

Lemma row_steps_NoDup rows rows' :
  rtc row_step rows rows' → NoDup (rid <$> rows) → NoDup (rid <$> rows').
Proof.
  induction 1 as [|rows1 rows2 rows3 Hstep _ IH]; [done|].
  intros Hnd. apply IH. by eapply row_step_NoDup.
Qed.

Lemma evolves_unique d d' : evolves d d' → ids_unique d → ids_unique d'.
Proof.
  intros Hev Hu k t' E'. specialize (Hev k). unfold rows_of in Hev. rewrite E' in Hev.
  eapply row_steps_NoDup; [exact Hev|].
  destruct (d !! k) as [t|] eqn:E; [by apply (Hu k t) | constructor].
Qed.

Lemma runs_evolve (runs : list interaction) d : evolves d (foldl interact d runs).
Proof.
  revert d. induction runs as [|i runs IH]; intros d; simpl; [reflexivity|].
  etransitivity; [|apply IH]. apply app_evolves.
Qed.

(** *** What one run does to the rows of a table *)

#[local] Instance rewritten_refl (k : string) : Reflexive (rewritten k).
Proof. intros d. exists id. split; [done|]. by rewrite list_fmap_id. Qed.

#[local] Instance rewritten_trans (k : string) : Transitive (rewritten k).
Proof.
  intros d1 d2 d3 (f & Hf & E12) (g & Hg & E23). exists (g ∘ f). split.
  - intros r. simpl. by rewrite Hg, Hf.
  - by rewrite E23, E12, <- list_fmap_compose.
Qed.

#[local] Instance same_rows_at_refl (k : string) :
  Reflexive (λ d d' : db, rows_of d' k = rows_of d k).
Proof. by intros d. Qed.

#[local] Instance same_rows_at_trans (k : string) :
  Transitive (λ d d' : db, rows_of d' k = rows_of d k).
Proof. intros d1 d2 d3 H12 H23. by rewrite H23. Qed.

Lemma store_bind_ret {A B : Type} (m : script A) (g : A → B) d :
  store_of ((let* x := m in script_ret (g x)) d) = store_of (m d).
Proof. unfold script_bind. by destruct (m d). Qed.

(** The part of the generic view after the Add panel: the search, then
    either the confirmed deletion or the update loop. *)
Lemma crud_module_after_add (table : string) (fields labels : list string)
    (ss : session) (shown_of : frame → result (list (list value))) d (k : string) :
  lower table = table →
  Forall never_rowid fields →
  let rest : script (list (list value)) :=
    let* df := get_df table in
    let* shown := reading (λ _, shown_of df) in
    when (button ss ("del_" +:+ table))
      (when (checkbox ss confirm_delete)
         (delete_record table (VInt (typed_id ss table)) ;; raise RerunException)) ;;
    when (button ss ("upd_" +:+ table))
      (update_loop table (typed_id ss table)
         (zip fields ((λ '(f, label), text_input ss ("upd_" +:+ table +:+ "_" +:+ f))
                      <$> zip fields labels))) ;;
    script_ret shown in
  rewritten k d (store_of (rest d)) ∨
  button ss ("del_" +:+ k) = true ∧ checkbox ss confirm_delete = true ∧
  rows_of (store_of (rest d)) k
  = List.filter (λ r, negb (bool_decide (rid r = typed_id ss k))) (rows_of d k).
Proof.
  intros Hlow Hfields rest.
  remember (store_of (rest d)) as dF eqn:EF. subst rest.
  unfold script_bind at 1, get_df, reading in EF.
  destruct (read_sql_query_select_all table d) as [df|e]; [|subst dF; left; reflexivity].
  unfold script_bind at 1 in EF.
  destruct (shown_of df) as [shown|e]; [|subst dF; left; reflexivity].
  unfold script_bind at 1 in EF.
  destruct (button ss ("del_" +:+ table)) eqn:Edel,
           (checkbox ss confirm_delete) eqn:Ebox; simpl in EF.
  1: { unfold script_bind at 1 2 in EF.
       pose proof (delete_rows_at table (typed_id ss table) d k) as Hdel.
       destruct (delete_record table (VInt (typed_id ss table)) d) as [[] d1|e d1];
         simpl in *; subst dF.
       - destruct Hdel as [E | [-> E]].
         + left. exists id. split; [done|]. by rewrite list_fmap_id.
         + right. rewrite Hlow in *. by rewrite Edel.
       - destruct Hdel as [E | [-> E]].
         + left. exists id. split; [done|]. by rewrite list_fmap_id.
         + right. rewrite Hlow in *. by rewrite Edel. }
  all: subst dF; left;
    apply (along_bind (rewritten k));
      [ apply along_when; [apply _|];
        apply along_update_loop; [apply _..|];
        intros f u Hin d0; apply update_rows;
        apply elem_of_zip_l in Hin; rewrite Forall_forall in Hfields; by apply Hfields
      | intros _; apply along_ret; apply _ ].
Qed.

(** The generic view: at most one row arrives, under the identifier the
    store chooses, before the confirmed deletion or the rewriting of
    cells. *)
Lemma crud_module_changes (title table : string) (fields labels add_cols : list string)
    (ss : session) d (k : string) :
  lower table = table →
  Forall never_rowid fields →
  Forall never_rowid add_cols →
  ∃ rows2,
    (rows2 = rows_of d k ∨
     button ss ("add_" +:+ k) = true ∧ row_arrives (rows_of d k) rows2) ∧
    ((∃ f : row → row,
        (∀ r, rid (f r) = rid r) ∧
        rows_of (store_of (crud_module title table fields labels add_cols ss d)) k
        = f <$> rows2) ∨
     button ss ("del_" +:+ k) = true ∧ checkbox ss confirm_delete = true ∧
     rows_of (store_of (crud_module title table fields labels add_cols ss d)) k
     = List.filter (λ r, negb (bool_decide (rid r = typed_id ss k))) rows2).
Proof.
  intros Hlow Hfields Hcols.
  pose proof (crud_module_after_add table fields labels ss
                (shown_rows (text_input ss ("search_" +:+ table)))) as Hrest.
  remember (store_of (crud_module title table fields labels add_cols ss d)) as dF eqn:EF.
  unfold crud_module in EF.
  set (inputs := _ <$> zip labels (replicate (length fields) "text")) in EF.
  unfold script_bind at 1 in EF.
  destruct (button ss ("add_" +:+ table)) eqn:Eadd; simpl in EF.
  - pose proof (insert_rows_at table add_cols inputs d k Hcols) as Hins.
    destruct (add_record table add_cols inputs d) as [[] d1|e d1]; simpl in Hins.
    + exists (rows_of d1 k). split.
      * destruct Hins as [E | [-> Harr]]; [by left|]. right.
        rewrite Hlow in Harr |- *. by rewrite Eadd.
      * subst dF. pose proof (Hrest d1 k Hlow Hfields) as Hr. cbv zeta in Hr.
        destruct Hr as [Hr | (? & ? & E)].
        -- left. exact Hr.
        -- right. split; [done|]. split; [done|]. exact E.
    + exists (rows_of d1 k). split.
      * destruct Hins as [E | [-> Harr]]; [by left|]. right.
        rewrite Hlow in Harr |- *. by rewrite Eadd.
      * subst dF. left. exists id. split; [done|]. by rewrite list_fmap_id.
  - exists (rows_of d k). split; [by left|].
    subst dF. pose proof (Hrest d k Hlow Hfields) as Hr. cbv zeta in Hr.
    destruct Hr as [Hr | (? & ? & E)].
    + left. exact Hr.
    + right. split; [done|]. split; [done|]. exact E.
Qed.

(** One run of the script, in any module. *)
Lemma app_changes (m : module) (ss : session) (today : string) d (k : string) :
  run_changes ss k (rows_of d k) (rows_of (store_of (app m ss today d)) k).
Proof.
  assert (∀ cols, Forall never_rowid cols ↔
                  Forall (λ c, lower c ≠ "id" ∧ lower c ∉ rowid_aliases) cols) as Hnever
    by done.
  assert (∀ d0 title table fields labels add_cols,
            rows_of d0 k = rows_of d k →
            lower table = table →
            Forall never_rowid fields → Forall never_rowid add_cols →
            run_changes ss k (rows_of d k)
              (rows_of (store_of
                 ((let* rows := crud_module title table fields labels add_cols ss in
                   script_ret (Records rows)) d0)) k)) as Hcrud.
  { intros d0 title table fields labels add_cols E0 Hlow Hf Ha.
    rewrite store_bind_ret.
    destruct (crud_module_changes title table fields labels add_cols ss d0 k Hlow Hf Ha)
      as (rows2 & H2 & Hend).
    exists (rows_of d k), rows2. rewrite <- E0. split; [by left|]. by split. }
  unfold app, script_bind at 1.
  pose proof (create_tables_same_rows tables d k) as Hcreate.
  destruct (create_tables tables d) as [[] d0|e d0]; simpl in Hcreate.
  2: { simpl. exists (rows_of d k), (rows_of d k). split; [by left|]. split; [by left|].
       left. exists id. split; [done|]. by rewrite Hcreate, list_fmap_id. }
  destruct m;
    try (apply Hcrud;
         [ done | reflexivity
         | apply Hnever, (bool_decide_unpack _); by vm_compute
         | apply Hnever, (bool_decide_unpack _); by vm_compute ]).
  - rewrite store_bind_ret.
    exists (rows_of d k), (rows_of d k). split; [by left|]. split; [by left|].
    left. exists id. split; [done|]. rewrite list_fmap_id, <- Hcreate.
    apply (along_dashboard (λ d1 d2 : db, rows_of d2 k = rows_of d1 k)).
  - unfold script_bind at 1, mark_attendance, when.
    destruct (button ss "Mark Attendance") eqn:Emark.
    + set (values := [VInt _; VText today; VText _]).
      assert (Forall never_rowid ["student_id"; "date"; "status"]) as Hcols
        by (apply Hnever, (bool_decide_unpack _); by vm_compute).
      pose proof (insert_rows_at "attendance" ["student_id"; "date"; "status"] values d0 k
                    Hcols) as Hins.
      destruct (add_record "attendance" ["student_id"; "date"; "status"] values d0)
        as [[] d1|e d1]; simpl in Hins.
      * destruct (crud_module_changes "View Attendance Records" "attendance"
                    ["student_id"; "date"; "status"] ["Student ID"; "Date"; "Status"]
                    ["student_id"; "date"; "status"] ss d1 k) as (rows2 & H2 & Hend);
          [ reflexivity
          | apply Hnever, (bool_decide_unpack _); by vm_compute
          | apply Hnever, (bool_decide_unpack _); by vm_compute |].
        rewrite store_bind_ret.
        exists (rows_of d1 k), rows2. split; [|by split].
        rewrite <- Hcreate. destruct Hins as [E | [-> Harr]]; [by left|]. by right.
      * simpl. exists (rows_of d1 k), (rows_of d1 k).
        split; [|split; [by left|]].
        -- rewrite <- Hcreate. destruct Hins as [E | [-> Harr]]; [by left|]. by right.
        -- left. exists id. split; [done|]. by rewrite list_fmap_id.
    + apply Hcrud;
        [ done | reflexivity
        | apply Hnever, (bool_decide_unpack _); by vm_compute
        | apply Hnever, (bool_decide_unpack _); by vm_compute ].
Qed.

Lemma filter_ids (j : Z) rows :
  rid <$> List.filter (λ r, negb (bool_decide (rid r = j))) rows
  = List.filter (λ i, negb (bool_decide (i = j))) (rid <$> rows).
Proof.
  induction rows as [|r rows IH]; simpl; [done|].
  destruct (bool_decide (rid r = j)); simpl; [exact IH | f_equal; exact IH].
Qed.

Lemma row_arrives_ids rows rows' :
  row_arrives rows rows' → id_arrives (rid <$> rows) (rid <$> rows').
Proof.
  intros (r & l1 & l2 & Hnext & -> & ->).
  exists (rid r), (rid <$> l1), (rid <$> l2).
  split; [done|]. by rewrite !fmap_app.
Qed.

Lemma run_changes_assigns (ss : session) (k : string) rows rows' :
  run_changes ss k rows rows' → run_assigns ss k (rid <$> rows) (rid <$> rows').
Proof.
  intros (rows1 & rows2 & H1 & H2 & Hend).
  exists (rid <$> rows1), (rid <$> rows2). split; [|split].
  - destruct H1 as [-> | (? & ? & Harr)]; [by left|]. right.
    split; [done|]. split; [done|]. by apply row_arrives_ids.
  - destruct H2 as [-> | (? & Harr)]; [by left|]. right.
    split; [done|]. by apply row_arrives_ids.
  - destruct Hend as [(f & Hf & ->) | (? & ? & ->)].
    + left. rewrite <- list_fmap_compose. apply Forall_fmap_ext_1, Forall_forall.
      intros r _. apply Hf.
    + right. split; [done|]. split; [done|]. apply filter_ids.
Qed.

(** C8. After any sequence of runs of the script (whatever is inserted,
    updated or deleted in them), the identifiers of every table are
    pairwise distinct.  And every identifier is assigned by the store: in
    each run of the sequence and in each table, identifiers arrive only
    through Mark Attendance and Add Record, one at a time, each being the
    one that the store chooses from the identifiers then in use
    ([next_rowid]: no insert supplies one); the only other change is the
    removal of the identifier typed for a confirmed Delete Record. *)
Theorem identifiers_unique_and_assigned (runs : list interaction) (d : db) :
  ids_unique d →
  ids_unique (foldl interact d runs) ∧
  ∀ (n : nat) (i : interaction) (k : string),
    runs !! n = Some i →
    run_assigns (widgets i) k
      (rid <$> rows_of (foldl interact d (take n runs)) k)
      (rid <$> rows_of (foldl interact d (take (S n) runs)) k).
Proof.
  intros Hu. split.
  - eapply evolves_unique; [apply runs_evolve | done].
  - intros n i k Hn. rewrite (take_S_r _ _ _ Hn), foldl_app. simpl.
    apply run_changes_assigns, app_changes.
Qed.

(** C10. In every run of the script and in every table, an existing row
    never changes identifier.  Rows arrive only through Mark Attendance and
    Add Record, among the rows that were there, which are left as they
    are; the confirmed Delete Record removes the row with the typed
    identifier and leaves the others as they are; otherwise the rows are
    rewritten in place, each keeping its identifier (the update loop never
    writes to the rowid).  A run that neither inserts nor deletes leaves
    every identifier where it was. *)
Theorem identifiers_immutable (m : module) (ss : session) (today : string) (d : db)
    (k : string) :
  run_changes ss k (rows_of d k) (rows_of (store_of (app m ss today d)) k) ∧
  (only_updates ss →
   rid <$> rows_of (store_of (app m ss today d)) k = rid <$> rows_of d k).
Proof.
  split; [apply app_changes|].
  intros Hss. by apply app_same_ids.
Qed.

End Identifiers.

(** * Further properties *)

(** ** Start-up *)

Section Startup.
Context `{Host}.

Implicit Types (d : db) (l : list (string * list (string * affinity))).

Lemma create_tables_done l d : ∃ d', create_tables l d = Done () d'.
Proof.
  revert d. induction l as [|[table schema] l IH]; intros d; simpl.
  - by eexists.
  - unfold script_bind, run_sql, execute. simpl. apply IH.
Qed.

Lemma create_tables_kept l d d' :
  create_tables l d = Done () d' → tables_kept d d'.
Proof.
  intros E k t Hk. destruct (create_tables_keeps l d k t Hk) as (d'' & E' & Hk').
  congruence.
Qed.

Lemma create_tables_present l d d' (name : string) (fields : list (string * affinity)) :
  create_tables l d = Done () d' → (name, fields) ∈ l → is_Some (d' !! lower name).
Proof.
  revert d. induction l as [|[table schema] l IH]; intros d E Hin.
  - by apply not_elem_of_nil in Hin.
  - simpl in E. unfold script_bind, run_sql, execute in E. simpl in E.
    apply elem_of_cons in Hin as [[= -> ->] | Hin]; [|by eapply IH].
    pose proof (create_tables_kept _ _ _ E) as Hkept.
    destruct (d !! lower table) as [t|] eqn:Et.
    + exists t. by apply Hkept.
    + eexists. apply Hkept. apply lookup_insert_eq.
Qed.

Lemma create_tables_fresh l d d' (name : string) (fields : list (string * affinity)) :
  NoDup (lower <$> l.*1) →
  create_tables l d = Done () d' → (name, fields) ∈ l → d !! lower name = None →
  d' !! lower name = Some {| tfields := fields; trows := [] |}.
Proof.
  revert d. induction l as [|[table schema] l IH]; intros d Hnd E Hin Hnone.
  - by apply not_elem_of_nil in Hin.
  - simpl in E, Hnd. apply NoDup_cons in Hnd as [Hfirst Hnd].
    unfold script_bind, run_sql, execute in E. simpl in E.
    apply elem_of_cons in Hin as [[= -> ->] | Hin].
    + rewrite Hnone in E. pose proof (create_tables_kept _ _ _ E) as Hkept.
      apply Hkept. apply lookup_insert_eq.
    + assert (lower name ≠ lower table) as Hne.
      { intros Heq. apply Hfirst. rewrite <- Heq.
        apply list_elem_of_fmap. exists name. split; [done|].
        apply list_elem_of_fmap. by exists (name, fields). }
      eapply IH; [done | exact E | done |].
      destruct (d !! lower table); [done|]. by rewrite lookup_insert_ne.
Qed.

Lemma create_tables_only l d d' (k : string) :
  create_tables l d = Done () d' → is_Some (d' !! k) →
  is_Some (d !! k) ∨ k ∈ lower <$> l.*1.
Proof.
  revert d. induction l as [|[table schema] l IH]; intros d E Hk.
  - simpl in E. injection E as <-. by left.
  - simpl in E. unfold script_bind, run_sql, execute in E. simpl in E.
    destruct (IH _ E Hk) as [Hd | Hin].
    + destruct (d !! lower table) eqn:Et; [by left|].
      destruct (decide (k = lower table)) as [->|Hne].
      * right. simpl. apply elem_of_cons. by left.
      * left. by rewrite lookup_insert_ne in Hd.
    + right. simpl. apply elem_of_cons. by right.
Qed.

Lemma create_tables_again l d :
  (∀ name fields, (name, fields) ∈ l → is_Some (d !! lower name)) →
  create_tables l d = Done () d.
Proof.
  induction l as [|[table schema] l IH]; intros Hall; [done|].
  simpl. unfold script_bind, run_sql, execute. simpl.
  destruct (Hall table schema) as [t Ht]; [apply elem_of_cons; by left|].
  rewrite Ht. apply IH. intros name fields Hin. eapply Hall, elem_of_cons. by right.
Qed.

Lemma tables_lower (name : string) (fields : list (string * affinity)) :
  (name, fields) ∈ tables → lower name = name.
Proof.
  intros Hin.
  assert (Forall (λ p, lower p.1 = p.1) tables) as Hall
    by (apply (bool_decide_unpack _); by vm_compute).
  rewrite Forall_forall in Hall. apply (Hall _ Hin).
Qed.

(** X1. The start-up loop never raises, whatever the store: it leaves every
    existing table as it is (rows included), creates each missing one of
    the seven tables as declared and without rows, creates nothing else,
    and a second pass changes nothing. *)
Theorem startup_creates_missing_tables (d : db) :
  ∃ d',
    create_tables tables d = Done () d' ∧
    tables_kept d d' ∧
    (∀ name fields, (name, fields) ∈ tables →
       is_Some (d' !! name) ∧
       (d !! name = None → d' !! name = Some {| tfields := fields; trows := [] |})) ∧
    (∀ k, is_Some (d' !! k) → is_Some (d !! k) ∨ k ∈ tables.*1) ∧
    create_tables tables d' = Done () d'.
Proof.
  destruct (create_tables_done tables d) as [d' E]. exists d'.
  split; [done|]. split; [by eapply create_tables_kept|].
  assert (lower <$> tables.*1 = tables.*1) as Hlow by reflexivity.
  split; [|split].
  - intros name fields Hin. rewrite <- (tables_lower name fields Hin). split.
    + by apply (create_tables_present tables d d' name fields).
    + apply (create_tables_fresh tables d); [|done..].
      rewrite Hlow. apply (bool_decide_unpack _). by vm_compute.
  - intros k Hk. rewrite <- Hlow. by apply (create_tables_only tables d d').
  - apply create_tables_again. intros name fields Hin.
    by apply (create_tables_present tables d d' name fields).
Qed.

End Startup.

(** ** The accessors *)

Section Accessors.
Context `{Host}.

Implicit Types (d : db) (t : table_state) (rows : list row).

(** X2. A call of [add_record] whose table and columns are named by
    identifiers, with no column or with a number of values that differs
    from the number of columns, raises [OperationalError] and leaves the
    store as it was. *)
Theorem add_record_arity (table : string) (cols : list string) (values : list value) d :
  identifier table →
  Forall identifier cols →
  cols = [] ∨ length values ≠ length cols →
  add_record table cols values d = Raised OperationalError d.
Proof.
  intros _ _ Hbad. unfold add_record, run_sql, execute, get_table.
  destruct (d !! lower table) as [t|]; simpl; [|done].
  destruct Hbad as [-> | Hlen]; [done|].
  case_bool_decide; [done|].
  destruct (result_mapM (resolve (tfields t)) cols) as [refs|e] eqn:Er; simpl.
  - by rewrite bool_decide_eq_true_2.
  - assert (e = OperationalError) as He; [|by rewrite He].
    clear -Er. revert e Er. induction cols as [|c cols IH]; intros e; [done|].
    cbn [result_mapM].
    destruct (resolve (tfields t) c) as [ref|e'] eqn:Ec; simpl.
    + destruct (result_mapM (resolve (tfields t)) cols); simpl; [done|].
      intros [= <-]. by apply IH.
    + intros [= <-]. unfold resolve in Ec.
      by destruct (resolve_column (tfields t) c); simpl in Ec; simplify_eq.
Qed.

Lemma run_sql_other (s : statement) (params : list value) (table : string) d (k : string) :
  match s with
  | CreateIfNotExists _ _ => False
  | InsertInto table' _ _ | DeleteWhereId table' | UpdateSetWhereId table' _ =>
      table' = table
  end →
  k ≠ lower table →
  store_of (run_sql s params d) !! k = d !! k.
Proof.
  intros Hs Hk. unfold run_sql.
  destruct (execute s params d) as [d'|e] eqn:E; simpl; [|done].
  destruct s as [? ?|table' cols n|table'|table' f]; [done|subst table'..];
    unfold execute, get_table in E; simpl in E;
    destruct (d !! lower table) as [t|]; simpl in E; try done.
  - repeat (case_bool_decide; [done|]).
    destruct (result_mapM _ _); simpl in E; [|done].
    repeat (case_bool_decide; [done|]).
    destruct (bind_params params); simpl in E; [|done].
    destruct (insert_rowid _ _); simpl in E; [|done].
    injection E as <-. by apply put_rows_lookup_ne.
  - destruct params as [|w [|? ?]]; try done.
    destruct (bind_params [w]); simpl in E; [|done].
    injection E as <-. by apply put_rows_lookup_ne.
  - destruct (resolve (tfields t) f) as [ref|]; simpl in E; [|done].
    destruct params as [|v [|w [|? ?]]]; try done.
    destruct (bind_params [v; w]); simpl in E; [|done].
    destruct ref as [|c0 a0]; simpl in E.
    + destruct (update_rowid v w (trows t)); simpl in E; [|done].
      injection E as <-. by apply put_rows_lookup_ne.
    + injection E as <-. by apply put_rows_lookup_ne.
Qed.

(** X3. The three writing operations touch the table they name and no
    other: after [add_record], [delete_record] or the update loop on one
    table, with the table and the columns named by identifiers, whatever
    the values and whether or not an exception is raised, every other
    table is exactly as before. *)
Theorem writes_stay_in_their_table (table : string) (cols : list string)
    (values : list value) (id_val : value) (record_id : Z)
    (pairs : list (string * string)) d (k : string) :
  identifier table →
  Forall identifier cols →
  Forall identifier pairs.*1 →
  k ≠ lower table →
  store_of (add_record table cols values d) !! k = d !! k ∧
  store_of (delete_record table id_val d) !! k = d !! k ∧
  store_of (update_loop table record_id pairs d) !! k = d !! k.
Proof.
  intros _ _ _ Hk. split; [|split].
  - by apply (run_sql_other _ _ table).
  - by apply (run_sql_other _ _ table).
  - assert (Reflexive (λ d1 d2 : db, d2 !! k = d1 !! k)) as Hrefl by (by intros ?).
    assert (Transitive (λ d1 d2 : db, d2 !! k = d1 !! k)) as Htrans.
    { intros d1 d2 d3 H12 H23. by rewrite H23. }
    apply (along_update_loop (λ d1 d2 : db, d2 !! k = d1 !! k)).
    intros f u _ d0. by apply (run_sql_other _ _ table).
Qed.

Lemma put_rows_unique (table : string) t rows d :
  ids_unique d → NoDup (rid <$> rows) → ids_unique (put_rows table t rows d).
Proof.
  intros Hu Hnd k t' E. destruct (decide (k = lower table)) as [->|Hne].
  - rewrite put_rows_lookup in E. by injection E as <-.
  - rewrite put_rows_lookup_ne in E by done. by apply (Hu k).
Qed.

Lemma insert_rowid_fresh (o : option value) (used : list Z) (i : Z) :
  insert_rowid o used = Ok i → i ∉ used.
Proof.
  unfold insert_rowid. destruct (apply_affinity INTEGER (default VNull o)); try done.
  - destruct (next_rowid used) as [j|] eqn:E; simpl; [|done].
    intros [= <-]. by apply next_rowid_fresh.
  - case_bool_decide; [done|]. by intros [= <-].
Qed.

Lemma update_rowid_NoDup (v w : value) rows rows' :
  update_rowid v w rows = Ok rows' → NoDup (rid <$> rows) → NoDup (rid <$> rows').
Proof.
  unfold update_rowid. destruct (List.filter (matches w) rows) as [|r ?].
  { by intros [= <-]. }
  destruct (apply_affinity INTEGER v) as [|z| |]; try done.
  case_bool_decide; [by intros [= <-]|].
  case_bool_decide as Hz; [done|]. intros [= <-] Hnd.
  rewrite insert_row_ids. simpl. apply NoDup_cons. split.
  - intros (r' & E & Hin)%list_elem_of_fmap. apply Hz.
    apply list_elem_of_fmap. exists r'. split; [done|].
    apply list_elem_of_In in Hin. apply filter_In in Hin as [Hin _].
    by apply list_elem_of_In.
  - by apply filter_ids_NoDup.
Qed.

Lemma execute_unique (s : statement) (params : list value) d d' :
  execute s params d = Ok d' → ids_unique d → ids_unique d'.
Proof.
  intros E Hu.
  destruct s as [table schema|table cols n|table|table f];
    unfold execute, get_table in E; simpl in E.
  - destruct params; [|done]. injection E as <-.
    destruct (d !! lower table) eqn:Et; [done|].
    intros k t' Hk. destruct (decide (k = lower table)) as [->|Hne].
    + rewrite lookup_insert_eq in Hk. injection Hk as <-. constructor.
    + rewrite lookup_insert_ne in Hk by done. by apply (Hu k).
  - destruct (d !! lower table) as [t|] eqn:Et; simpl in E; [|done].
    repeat (case_bool_decide; [done|]).
    destruct (result_mapM _ _) as [refs|]; simpl in E; [|done].
    repeat (case_bool_decide; [done|]).
    destruct (bind_params params); simpl in E; [|done].
    destruct (insert_rowid _ _) as [i|] eqn:Ei; simpl in E; [|done].
    injection E as <-. apply put_rows_unique; [done|].
    rewrite insert_row_ids. simpl. apply NoDup_cons. split.
    + by apply insert_rowid_fresh in Ei.
    + by apply (Hu (lower table)).
  - destruct (d !! lower table) as [t|] eqn:Et; simpl in E; [|done].
    destruct params as [|w [|? ?]]; try done.
    destruct (bind_params [w]); simpl in E; [|done].
    injection E as <-. apply put_rows_unique; [done|].
    apply filter_ids_NoDup. by apply (Hu (lower table)).
  - destruct (d !! lower table) as [t|] eqn:Et; simpl in E; [|done].
    destruct (resolve (tfields t) f) as [ref|]; simpl in E; [|done].
    destruct params as [|v [|w [|? ?]]]; try done.
    destruct (bind_params [v; w]); simpl in E; [|done].
    destruct ref as [|c0 a0]; simpl in E.
    + destruct (update_rowid v w (trows t)) as [rows'|] eqn:Er; simpl in E; [|done].
      injection E as <-. apply put_rows_unique; [done|].
      eapply update_rowid_NoDup; [exact Er|]. by apply (Hu (lower table)).
    + injection E as <-. apply put_rows_unique; [done|].
      unfold update_field. rewrite <- list_fmap_compose.
      erewrite Forall_fmap_ext_1; [by apply (Hu (lower table))|].
      apply Forall_forall. intros r _. simpl. by destruct (matches w r).
Qed.

Lemma run_sql_unique (s : statement) (params : list value) d :
  ids_unique d → ids_unique (store_of (run_sql s params d)).
Proof.
  intros Hu. unfold run_sql. destruct (execute s params d) eqn:E; simpl; [|done].
  by eapply execute_unique.
Qed.

(** X4. None of the three writing operations can produce two rows with the
    same identifier, whatever its arguments: not [add_record] even when its
    columns name [id] and give it a value, not [delete_record], not the
    update loop even over a field list that contains [id]. *)
Theorem writes_keep_identifiers_distinct (table : string) (cols : list string)
    (values : list value) (id_val : value) (record_id : Z)
    (pairs : list (string * string)) d :
  ids_unique d →
  ids_unique (store_of (add_record table cols values d)) ∧
  ids_unique (store_of (delete_record table id_val d)) ∧
  ids_unique (store_of (update_loop table record_id pairs d)).
Proof.
  intros Hu. split; [by apply run_sql_unique|]. split; [by apply run_sql_unique|].
  assert (Reflexive (λ d1 d2 : db, ids_unique d1 → ids_unique d2)) as Hrefl
    by (by intros ?).
  assert (Transitive (λ d1 d2 : db, ids_unique d1 → ids_unique d2)) as Htrans
    by (intros d1 d2 d3 H12 H23 H1; auto).
  apply (along_update_loop (λ d1 d2 : db, ids_unique d1 → ids_unique d2)); [|done].
  intros f u _ d0. apply run_sql_unique.
Qed.

Lemma foldr_max_in (i : Z) (l : list Z) : foldr Z.max i l ∈ i :: l.
Proof.
  induction l as [|j l IH]; simpl; [apply elem_of_cons; by left|].
  destruct (Z.max_spec j (foldr Z.max i l)) as [[_ ->] | [_ ->]].
  - apply elem_of_cons in IH as [-> | IH].
    + apply elem_of_cons. by left.
    + do 2 (apply elem_of_cons; right). done.
  - apply elem_of_cons. right. apply elem_of_cons. by left.
Qed.

Lemma next_rowid_in_range (used : list Z) (i : Z) :
  Forall (λ j, j < MAX_ROWID) used →
  Forall (λ j, in_int64 j = true) used →
  next_rowid used = Some i →
  in_int64 i = true.
Proof.
  destruct used as [|j l]; simpl; [by intros _ _ [= <-]|].
  intros Hlt Hin. pose proof (foldr_max_in j l) as Hm.
  rewrite Forall_forall in Hlt, Hin. specialize (Hlt _ Hm). specialize (Hin _ Hm).
  apply Z.ltb_lt in Hlt as Hlt'. rewrite Hlt'. intros [= <-].
  unfold in_int64, MIN_INT64, MAX_ROWID in *.
  apply andb_true_iff in Hin as [?%Z.leb_le ?%Z.leb_le].
  apply andb_true_iff. split; apply Z.leb_le; lia.
Qed.

Lemma add_record_next (table : string) (cols : list string) (values : list value) d t :
  d !! lower table = Some t →
  wf_fields (tfields t) →
  unsaturated t →
  cols ≠ [] →
  cols ⊆ (tfields t).*1 →
  length values = length cols →
  forallb bindable values = true →
  ∃ i refs,
    next_rowid (ids t) = Some i ∧
    Forall (λ j, j < i) (ids t) ∧
    add_record table cols values d
    = Done () (put_rows table t
                 (trows t ++ [{| rid := i; cells := new_cells (tfields t) refs values |}]) d).
Proof.
  intros E Hwf Hsat Hne Hsub Hlen Hbind.
  destruct (next_rowid_unsaturated _ Hsat) as (i & Hnext & Hlt).
  destruct (resolve_all_declared _ _ Hwf Hsub) as (refs & Hrefs & HF).
  exists i, refs. split; [done|]. split; [done|].
  unfold add_record, run_sql, execute, get_table. rewrite E. simpl.
  rewrite bool_decide_eq_false_2 by done. rewrite Hrefs. simpl.
  rewrite !bool_decide_eq_false_2 by lia.
  unfold bind_params. rewrite Hbind. simpl.
  assert (RowId ∉ refs) as Hnot.
  { intros Hin. eapply list_elem_of_lookup in Hin as [n Hn].
    destruct (Forall2_lookup_r _ _ _ _ _ HF Hn) as (c & _ & a & ? & _). done. }
  unfold insert_rowid. rewrite assigned_rowid_none by done. simpl.
  unfold ids in *. rewrite Hnext. simpl.
  by rewrite insert_row_last.
Qed.

(** X5. Deleting the row that [add_record] has just added gives back the
    store as it was before the insertion, so that the next insertion
    receives the same identifier again. *)
Theorem insert_then_delete_restores (table : string) (cols : list string)
    (values : list value) d t :
  d !! lower table = Some t →
  wf_fields (tfields t) →
  unsaturated t →
  Forall (λ j, in_int64 j = true) (ids t) →
  cols ≠ [] →
  cols ⊆ (tfields t).*1 →
  length values = length cols →
  forallb bindable values = true →
  ∃ d' i,
    add_record table cols values d = Done () d' ∧
    next_rowid (ids t) = Some i ∧
    ids (default t (d' !! lower table)) = ids t ++ [i] ∧
    delete_record table (VInt i) d' = Done () d.
Proof.
  intros E Hwf Hsat Hrange Hne Hsub Hlen Hbind.
  destruct (add_record_next table cols values d t) as (i & refs & Hi & Hlt & Hadd);
    try done.
  eexists _, i. split; [exact Hadd|]. split; [done|]. split.
  { rewrite put_rows_lookup. simpl. unfold ids. simpl. by rewrite fmap_app. }
  erewrite delete_record_lookup; [| apply put_rows_lookup |].
  - simpl. rewrite put_rows_put_rows by done. f_equal.
    rewrite List.filter_app. simpl. rewrite matches_int.
    rewrite bool_decide_eq_true_2 by done. simpl.
    rewrite app_nil_r, delete_absent; [by apply put_rows_same|].
    intros Hin. unfold ids in Hlt. rewrite Forall_forall in Hlt.
    specialize (Hlt _ Hin). lia.
  - by eapply next_rowid_in_range.
Qed.

Lemma delete_store (table : string) (w : value) d :
  store_of (delete_record table w d)
  = match d !! lower table with
    | Some t =>
        if bindable w
        then put_rows table t (List.filter (λ r, negb (matches w r)) (trows t)) d
        else d
    | None => d
    end.
Proof.
  unfold delete_record, run_sql, execute, get_table.
  destruct (d !! lower table) as [t|]; simpl; [|done].
  unfold bind_params. simpl. rewrite andb_true_r. by destruct (bindable w).
Qed.

Lemma filter_filter_comm {A : Type} (p q : A → bool) (l : list A) :
  List.filter p (List.filter q l) = List.filter q (List.filter p l).
Proof.
  induction l as [|a l IH]; simpl; [done|].
  destruct (p a) eqn:Ep, (q a) eqn:Eq; simpl; rewrite ?Ep, ?Eq, IH; done.
Qed.

Lemma filter_filter_same {A : Type} (p : A → bool) (l : list A) :
  List.filter p (List.filter p l) = List.filter p l.
Proof.
  induction l as [|a l IH]; simpl; [done|].
  destruct (p a) eqn:Ep; simpl; rewrite ?Ep, IH; done.
Qed.

(** X6. In a table of the store that is named by an identifier, deleting
    is idempotent and the order of two deletions does not matter, whatever
    the identifier values and whether or not they are in use. *)
Theorem delete_record_idempotent_commutes (table : string) (w1 w2 : value) d :
  identifier table →
  is_Some (d !! lower table) →
  store_of (delete_record table w1 (store_of (delete_record table w1 d)))
  = store_of (delete_record table w1 d) ∧
  store_of (delete_record table w1 (store_of (delete_record table w2 d)))
  = store_of (delete_record table w2 (store_of (delete_record table w1 d))).
Proof.
  intros _ [t E]. rewrite !delete_store. rewrite E.
  split.
  - destruct (bindable w1); [|by rewrite E].
    rewrite put_rows_lookup. simpl.
    by rewrite put_rows_put_rows, filter_filter_same.
  - destruct (bindable w1) eqn:E1, (bindable w2) eqn:E2;
      rewrite ?put_rows_lookup, ?E, ?E1, ?E2; simpl; try done.
    by rewrite !put_rows_put_rows, filter_filter_comm.
Qed.

End Accessors.

(** ** More on the search *)

Section SearchMore.
Context `{Host}.

Lemma select_rows_sublist {A : Type} (p : A → result bool) (l shown : list A) :
  select_rows p l = Ok shown → sublist shown l.
Proof.
  revert shown. induction l as [|a l IH]; intros shown; simpl.
  - intros [= <-]. constructor.
  - destruct (p a) as [b|]; simpl; [|done].
    destruct (select_rows p l) as [rest|]; simpl; [|done].
    intros [= <-]. destruct b; [apply sublist_skip | apply sublist_cons]; by apply IH.
Qed.

(** X7. Whatever the query (a regular expression included), a search that
    does not raise displays rows of the table only, each at most once per
    occurrence and in the order of the table. *)
Theorem search_shows_rows_of_the_table (q : string) (f : frame)
    (shown : list (list value)) :
  shown_rows q f = Ok shown → sublist shown (data f).
Proof.
  unfold shown_rows, search_rows. case_bool_decide.
  - apply select_rows_sublist.
  - by intros [= <-].
Qed.

Lemma parse_dotted (q : string) :
  dotted q →
  ∃ atoms, parse_simple q = Some atoms ∧
    ∀ s, match_here atoms s = true
         ↔ ∃ mid post, s = mid +:+ post ∧ wild_equal q mid = true.
Proof.
  unfold dotted. induction q as [|c q IH]; cbn [parse_simple list_ascii_of_string].
  - intros _. exists []. split; [done|]. intros s. simpl. split.
    + intros _. by exists "", s.
    + done.
  - intros [Hc Hq]%Forall_cons. destruct (IH Hq) as (atoms & -> & Hatoms).
    assert (∀ (a : atom) (s : string),
              (∀ d, atom_matches a d
                    = if bool_decide (c = "."%char) then negb (bool_decide (d = newline))
                      else ci_eq c d) →
              match_here (a :: atoms) s = true
              ↔ ∃ mid post, s = mid +:+ post ∧ wild_equal (String c q) mid = true)
      as Hstep.
    { intros a s Ha. destruct s as [|d s]; simpl.
      - split; [done|]. intros (mid & post & E & Hm).
        destruct mid; [done|]. by rewrite append_String in E.
      - rewrite andb_true_iff, Hatoms, Ha. split.
        + intros (Hd & mid & post & -> & Hm).
          exists (String d mid), post. split; [done|]. simpl. by rewrite Hd.
        + intros (mid & post & E & Hm). destruct mid as [|d' mid]; [done|].
          rewrite append_String in E. injection E as -> ->.
          simpl in Hm. apply andb_true_iff in Hm as [? ?]. eauto. }
    destruct (decide (c = "."%char)) as [Edot|Edot].
    + rewrite (bool_decide_eq_true_2 _ Edot). exists (AnyChar :: atoms).
      split; [done|]. intros s. apply (Hstep AnyChar). intros d. simpl.
      by rewrite (bool_decide_eq_true_2 _ Edot).
    + rewrite (bool_decide_eq_false_2 _ Edot).
      destruct Hc as [-> | Hc]; [done|]. rewrite Hc. exists (Lit c :: atoms).
      split; [done|]. intros s. apply (Hstep (Lit c)). intros d. simpl.
      by rewrite (bool_decide_eq_false_2 _ Edot).
Qed.

(** X8. In a query whose only operator is the full stop, every full stop
    stands for one arbitrary character other than a newline: the search
    displays exactly the rows with a cell whose string form has a part of
    the length of the query that agrees with it on the other characters,
    up to case. *)
Theorem search_full_stop_is_wildcard (q : string) (f : frame) :
  dotted q →
  q ≠ "" →
  ∃ keep : list value → bool,
    (∀ r, keep r = true ↔ ∃ s, s ∈ astype_str f r ∧ wild_contains q s) ∧
    shown_rows q f = Ok (List.filter keep (data f)).
Proof.
  intros Hq Hne. destruct (parse_dotted q Hq) as (atoms & Hparse & Hatoms).
  exists (λ r, existsb (match_anywhere atoms) (astype_str f r)). split.
  - intros r. rewrite existsb_exists. unfold wild_contains.
    split; intros (s & Hin & Hm); exists s; (split; [by apply list_elem_of_In|]).
    + apply match_anywhere_spec in Hm as (pre & rest & -> & Hm).
      apply Hatoms in Hm as (mid & post & -> & Hm). eauto.
    + destruct Hm as (pre & mid & post & -> & Hm). apply match_anywhere_spec.
      exists pre, (mid +:+ post). split; [done|]. apply Hatoms. eauto.
  - unfold shown_rows. rewrite bool_decide_eq_true_2 by done.
    unfold search_rows. apply select_rows_total. intros r. unfold row_contains.
    rewrite (mapM_total (match_anywhere atoms)).
    + simpl. by rewrite existsb_fmap.
    + intros s. unfold re_search. by rewrite Hparse.
Qed.

End SearchMore.

(** ** The panels of the generic view *)

Section Panels.
Context `{Host}.

Implicit Types (d : db) (t : table_state) (ss : session).

Lemma add_inputs_are_text ss (labels : list string) (n : nat) :
  (λ '(label, typ),
     if bool_decide (typ = "text") then (VText (text_input ss label) : value)
     else VInt (Z.max 0 (number_input ss label)))
  <$> zip labels (replicate n "text")
  = (λ label, VText (text_input ss label)) <$> take n labels.
Proof.
  revert n. induction labels as [|l labels IH]; intros [|n]; simpl; try done.
  by rewrite IH.
Qed.

Lemma text_inputs_bindable ss (labels : list string) :
  forallb bindable ((λ label, VText (text_input ss label) : value) <$> labels) = true.
Proof. induction labels as [|l ls IH]; [done|]. rewrite fmap_cons. simpl. exact IH. Qed.

(** X9. The Add panel inserts what was typed, as text: with Add Record
    pressed (and nothing else), the generic view adds one row built from the
    texts of the boxes, number widgets playing no part, and the table it
    displays in the same run already ends with the new row. *)
Theorem add_panel_inserts_and_shows (title table : string)
    (fields labels add_cols : list string) ss d t :
  d !! lower table = Some t →
  wf_fields (tfields t) →
  unsaturated t →
  add_cols ≠ [] →
  NoDup add_cols →
  add_cols ⊆ (tfields t).*1 →
  length add_cols = length (take (length fields) labels) →
  button ss ("add_" +:+ table) = true →
  text_input ss ("search_" +:+ table) = "" →
  button ss ("del_" +:+ table) = false →
  button ss ("upd_" +:+ table) = false →
  ∃ d' i,
    add_record table add_cols
      ((λ label, VText (text_input ss label)) <$> take (length fields) labels) d
    = Done () d' ∧
    Forall (λ j, j < i) (ids t) ∧
    crud_module title table fields labels add_cols ss d
    = Done (data (frame_of t) ++
            [VInt i :: ((λ fa, stored fa.2
                           (record_of add_cols
                              ((λ label, VText (text_input ss label))
                               <$> take (length fields) labels) !! fa.1))
                        <$> tfields t)]) d'.
Proof.
  intros E Hwf Hsat Hne _ Hsub Hlen Hadd Hsearch Hdel Hupd.
  set (texts := (λ label, VText (text_input ss label)) <$> take (length fields) labels).
  destruct (add_record_declared table add_cols texts d t)
    as (i & refs & Hlt & HF & Hins); try done.
  { unfold texts. by rewrite length_fmap. }
  { apply text_inputs_bindable. }
  eexists _, i. split; [exact Hins|]. split; [done|].
  unfold crud_module, script_bind. rewrite add_inputs_are_text. fold texts.
  rewrite Hadd. simpl. rewrite Hins.
  erewrite get_df_lookup by apply put_rows_lookup.
  rewrite Hsearch, Hdel, Hupd. simpl. unfold script_ret. f_equal.
  unfold frame_of. simpl. rewrite fmap_app. simpl.
  by rewrite (select_new_row _ add_cols).
Qed.

(** X10. Without the confirmation box ticked, Delete Record deletes
    nothing: a run of the generic view in which neither Add Record nor
    Update Record is pressed leaves the store as it was, whatever the
    identifier and the query, even when the run raises. *)
Theorem delete_waits_for_confirmation (title table : string)
    (fields labels add_cols : list string) ss d :
  button ss ("add_" +:+ table) = false →
  checkbox ss "Confirm Delete? This cannot be undone!" = false →
  button ss ("upd_" +:+ table) = false →
  store_of (crud_module title table fields labels add_cols ss d) = d.
Proof.
  intros Hadd Hbox Hupd. unfold crud_module, script_bind.
  rewrite Hadd, Hbox, Hupd. simpl.
  unfold get_df, reading.
  destruct (read_sql_query_select_all table d) as [df|]; simpl; [|done].
  destruct (shown_rows _ df) as [shown|]; simpl; [|done].
  by destruct (button ss ("del_" +:+ table)).
Qed.

(** X11. A confirmed deletion removes the rows with the target identifier
    and ends the run at once with a rerun request: the update of the same
    run is not carried out, even with Update Record pressed. *)
Theorem confirmed_delete_reruns (title table : string)
    (fields labels add_cols : list string) ss d t (shown : list (list value)) :
  d !! lower table = Some t →
  button ss ("add_" +:+ table) = false →
  shown_rows (text_input ss ("search_" +:+ table)) (frame_of t) = Ok shown →
  button ss ("del_" +:+ table) = true →
  checkbox ss "Confirm Delete? This cannot be undone!" = true →
  number_input ss ("id_" +:+ table) ≤ MAX_ROWID →
  crud_module title table fields labels add_cols ss d
  = Raised RerunException
      (put_rows table t
         (List.filter
            (λ r, negb (bool_decide (rid r = Z.max 1 (number_input ss ("id_" +:+ table)))))
            (trows t)) d).
Proof.
  intros E Hadd Hshown Hdel Hbox Hid. unfold crud_module, script_bind.
  rewrite Hadd, Hdel, Hbox. simpl.
  rewrite (get_df_lookup table d t E). unfold reading. rewrite Hshown. simpl.
  rewrite (delete_record_lookup table _ d t E).
  - unfold raise. do 2 f_equal.
    induction (trows t) as [|r rows IH]; simpl; [done|].
    rewrite matches_int, IH.
    by destruct (decide (Z.max 1 (number_input ss ("id_" +:+ table)) = rid r)) as [->|?];
      [rewrite !bool_decide_eq_true_2 | rewrite !bool_decide_eq_false_2].
  - unfold in_int64, MIN_INT64, MAX_ROWID in *.
    apply andb_true_iff. split; apply Z.leb_le; lia.
Qed.

Lemma idle_crud_module (title table : string) (fields labels add_cols : list string) ss :
  (∀ key, button ss key = false) →
  moves_along eq (crud_module title table fields labels add_cols ss).
Proof.
  intros Hidle. apply along_crud_module; try apply _;
    intros Hb; by rewrite Hidle in Hb.
Qed.

(** X12. A run in which no button is pressed only reads: in every module
    and whatever is typed in the boxes (the query included), the store
    after the run is the one the start-up loop produces, so that every
    table that existed is as it was and every table has the rows it had. *)
Theorem idle_run_only_reads (m : module) ss (today : string) d :
  (∀ key, button ss key = false) →
  store_of (app m ss today d) = store_of (create_tables tables d) ∧
  tables_kept d (store_of (app m ss today d)) ∧
  same_rows d (store_of (app m ss today d)).
Proof.
  intros Hidle.
  assert (store_of (app m ss today d) = store_of (create_tables tables d)) as Hstore.
  { unfold app, script_bind.
    destruct (create_tables_done tables d) as [d1 ->]. simpl.
    assert (∀ (A : Type) (rest : script A),
              moves_along eq rest →
              ∀ B (k : A → B),
                store_of (match rest d1 with
                          | Done a d' => script_ret (k a) d'
                          | Raised e d' => Raised e d'
                          end) = d1) as Hrest.
    { intros A rest Hr B k. specialize (Hr d1). by destruct (rest d1). }
    destruct m; try (apply Hrest; by apply idle_crud_module).
    - apply Hrest. apply along_dashboard; apply _.
    - unfold mark_attendance. rewrite Hidle. simpl.
      apply Hrest. by apply idle_crud_module. }
  rewrite Hstore. destruct (startup_creates_missing_tables d) as (d1 & E & Hkept & _).
  rewrite E. simpl. split; [done|]. split; [done|].
  intros k. pose proof (create_tables_same_rows tables d k) as Hsame.
  by rewrite E in Hsame.
Qed.

End Panels.

(** ** Numbers typed as text *)

Section TypedNumbers.
Context `{Host}.

(** X13. An integer that fits 64 bits and is typed in decimal into the box
    of an INTEGER column is stored as that integer, and an integer given to
    a TEXT column is stored as its decimal text: through a TEXT and back
    through an INTEGER column the integer is unchanged. *)
Theorem typed_integer_is_stored_as_integer (z : Z) :
  in_int64 z = true →
  apply_affinity INTEGER (VText (pretty z)) = VInt z ∧
  apply_affinity TEXT (VInt z) = VText (pretty z) ∧
  apply_affinity INTEGER (apply_affinity TEXT (VInt z)) = VInt z.
Proof.
  intros Hz.
  assert (apply_affinity INTEGER (VText (pretty z)) = VInt z) as E.
  { simpl. unfold numeric_of_text. by rewrite int_literal_pretty, Hz. }
  by repeat split.
Qed.

End TypedNumbers.

Section TwoPaths.
Context `{Host}.

Implicit Types (d : db) (t : table_state) (ss : session).

Lemma attendance_insert_same (sid : Z) (today status : string) d t :
  d !! "attendance" = Some t →
  ("attendance", tfields t) ∈ tables →
  in_int64 sid = true →
  add_record "attendance" ["student_id"; "date"; "status"]
    [VInt sid; VText today; VText status] d
  = add_record "attendance" ["student_id"; "date"; "status"]
      [VText (pretty sid); VText today; VText status] d.
Proof.
  intros E Hdecl Hsid. pose proof (attendance_fields _ Hdecl) as Hf.
  destruct (typed_integer_is_stored_as_integer sid Hsid) as (Hread & _ & _).
  unfold add_record, run_sql, execute, get_table.
  change (lower "attendance") with "attendance". rewrite E. simpl.
  rewrite Hf. simpl. unfold bind_params. simpl. rewrite Hsid. simpl.
  unfold new_cells, assigned, stored. simpl.
  change (default (VText (pretty sid)) (numeric_of_text (pretty sid)))
    with (apply_affinity INTEGER (VText (pretty sid))).
  by rewrite Hread.
Qed.

Lemma crud_add_store (title table : string) (fields labels add_cols : list string) ss d :
  button ss ("add_" +:+ table) = true →
  button ss ("del_" +:+ table) = false →
  button ss ("upd_" +:+ table) = false →
  store_of (crud_module title table fields labels add_cols ss d)
  = store_of (add_record table add_cols
                ((λ label, VText (text_input ss label)) <$> take (length fields) labels) d).
Proof.
  intros Hadd Hdel Hupd. unfold crud_module, script_bind.
  rewrite add_inputs_are_text, Hadd, Hdel, Hupd. simpl.
  destruct (add_record _ _ _ d) as [[] d1|e d1]; simpl; [|done].
  unfold get_df, reading.
  destruct (read_sql_query_select_all table d1) as [df|]; simpl; [|done].
  by destruct (shown_rows _ df).
Qed.

(** X14. The two ways of entering attendance end in the same store: the
    Mark Attendance action for a student and a status, and the Add panel
    of the attendance view filled with the decimal text of the student's
    identifier, the date of the day and the status. *)
Theorem attendance_paths_agree (ss1 ss2 : session) (today today2 : string)
    (sid : Z) (status : string) d t :
  d !! "attendance" = Some t →
  ("attendance", tfields t) ∈ tables →
  1 ≤ sid ≤ MAX_ROWID →
  number_input ss1 "Student ID" = sid →
  status_options !! selectbox ss1 "Status" = Some status →
  button ss1 "Mark Attendance" = true →
  button ss1 "add_attendance" = false →
  checkbox ss1 "Confirm Delete? This cannot be undone!" = false →
  button ss1 "upd_attendance" = false →
  button ss2 "Mark Attendance" = false →
  button ss2 "add_attendance" = true →
  button ss2 "del_attendance" = false →
  button ss2 "upd_attendance" = false →
  text_input ss2 "Student ID" = pretty sid →
  text_input ss2 "Date" = today →
  text_input ss2 "Status" = status →
  store_of (app Attendance ss1 today d) = store_of (app Attendance ss2 today2 d).
Proof.
  intros E Hdecl Hsid Hnum Hsel Hmark1 Hadd1 Hbox1 Hupd1 Hmark2 Hadd2 Hdel2 Hupd2
    Ht1 Ht2 Ht3.
  destruct (create_tables_keeps tables d "attendance" t E) as (d1 & Hcreate & E1).
  assert (in_int64 sid = true) as Hin.
  { unfold in_int64, MIN_INT64, MAX_ROWID in *.
    apply andb_true_iff. split; apply Z.leb_le; lia. }
  unfold app, script_bind. rewrite Hcreate.
  unfold mark_attendance, when. rewrite Hmark1, Hmark2, Hnum, Hsel. simpl.
  rewrite Z.max_r by lia.
  assert (∀ (o : outcome (list (list value))),
            store_of (match o with
                      | Done a d' => script_ret (Records a) d'
                      | Raised e d' => Raised e d'
                      end) = store_of o) as Hrec by (by intros []).
  rewrite (Hrec (crud_module _ _ _ _ _ ss2 d1)).
  rewrite (crud_add_store _ "attendance") by done. simpl.
  rewrite Ht1, Ht2, Ht3.
  rewrite <- (attendance_insert_same sid today status d1 t) by done.
  destruct (add_record "attendance" ["student_id"; "date"; "status"]
              [VInt sid; VText today; VText status] d1) as [[] d2|e d2]; simpl; [|done].
  rewrite (Hrec (crud_module _ _ _ _ _ ss1 d2)).
  by apply (delete_waits_for_confirmation _ "attendance").
Qed.

End TwoPaths.

(** ** Deleting a student *)

Section DeleteStudent.
Context `{Host}.

Lemma delete_present (i : Z) (rows : list row) :
  NoDup (rid <$> rows) → i ∈ rid <$> rows →
  S (length (List.filter (λ r, negb (matches (VInt i) r)) rows)) = length rows.
Proof.
  induction rows as [|r rows IH]; simpl.
  - intros _ Hin. by apply not_elem_of_nil in Hin.
  - intros [Hr Hnd]%NoDup_cons Hin. rewrite matches_int.
    case_bool_decide as E; simpl.
    + subst i. by rewrite delete_absent.
    + apply elem_of_cons in Hin as [-> | Hin]; [done|]. by rewrite IH.
Qed.

(** X15. Deleting a student lowers the dashboard's Total Students by
    exactly one when the identifier is in use and leaves it as it was when
    it is not; the three other metrics do not change. *)
Theorem delete_student_counts_once (i : Z) (d : db) (ts tt tl tf : table_state)
    (ms : list (string * value)) :
  d !! "students" = Some ts →
  d !! "teachers" = Some tt →
  d !! "library" = Some tl →
  d !! "fees" = Some tf →
  NoDup (ids ts) →
  in_int64 i = true →
  dashboard d = Done ms d →
  ∃ d' n teachers books paid,
    delete_record "students" (VInt i) d = Done () d' ∧
    ms = [("Total Students", VInt n); ("Total Teachers", teachers);
          ("Books Issued", books); ("Total Fees Paid", paid)] ∧
    dashboard d'
    = Done [("Total Students", VInt (if bool_decide (i ∈ ids ts) then n - 1 else n));
            ("Total Teachers", teachers); ("Books Issued", books);
            ("Total Fees Paid", paid)] d'.
Proof.
  intros Es Et El Ef Hnd Hi Hdash.
  rewrite (dashboard_eval d ts tt tl tf) in Hdash by done.
  destruct (fees_metric tf) as [paid|e] eqn:Efees; [|done].
  injection Hdash as <-.
  eexists _, _, _, _, _.
  split; [by apply (delete_record_lookup "students")|]. split; [done|].
  erewrite dashboard_eval;
    [| apply (put_rows_lookup "students")
     | by rewrite put_rows_lookup_ne
     | by rewrite put_rows_lookup_ne
     | by rewrite put_rows_lookup_ne ].
  rewrite Efees. unfold metrics_of. simpl. repeat f_equal.
  unfold ids in *. case_bool_decide as Hin.
  - pose proof (delete_present i (trows ts) Hnd Hin). lia.
  - by rewrite delete_absent.
Qed.

End DeleteStudent.

(** * Examples *)

Section Examples.
#[local] Existing Instance integral_host.

Ltac decided := apply (bool_decide_unpack _); vm_compute; exact I.
Ltac computed := reflexivity.

Example one_student_fetched :
  get_df "students" one_student = Done one_student_frame one_student.
Proof. computed. Qed.

(** C1 (as amended) at a second student of [one_student], whose age is
    typed as a decimal text. *)
Lemma add_record_then_get_df_witness :
  ∃ f f' d' i news,
    get_df "students" one_student = Done f one_student ∧
    add_record "students" ["name"; "class"; "age"]
      [VText "Bilal"; VText "4C"; VText "9"] one_student = Done () d' ∧
    (∀ k, k ≠ lower "students" → d' !! k = one_student !! k) ∧
    get_df "students" d' = Done f' d' ∧
    next_rowid (ids (table_of one_student "students")) = Some i ∧
    Forall (λ j, j < i) (ids (table_of one_student "students")) ∧
    fields_of_record (tfields (table_of one_student "students"))
      (record_of ["name"; "class"; "age"] [VText "Bilal"; VText "4C"; VText "9"]) news ∧
    columns f' = columns f ∧
    data f' = data f ++ [VInt i :: news] ∧
    (dtypes f' = dtypes f →
     df_cells f' = df_cells f ++ [zip_with pandas_cell (dtypes f) (VInt i :: news)]).
Proof.
  apply (add_record_then_get_df "students" ["name"; "class"; "age"]
           [VText "Bilal"; VText "4C"; VText "9"] one_student
           (table_of one_student "students")).
  - reflexivity.
  - unfold identifier. decided.
  - computed.
  - unfold wf_fields. decided.
  - unfold unsaturated. decided.
  - discriminate.
  - decided.
  - decided.
  - reflexivity.
  - reflexivity.
Defined.

Example second_student_fetched :
  (λ d', (get_df "students" d',
          df_cells (frame_of (table_of d' "students"))))
    (store_of (add_record "students" ["name"; "class"; "age"]
                 [VText "Bilal"; VText "4C"; VText "9"] one_student))
  = (Done {| columns := ["id"; "name"; "class"; "age"];
             data := [[VInt 1; VText "Aisha"; VText "5A"; VInt 10];
                      [VInt 2; VText "Bilal"; VText "4C"; VInt 9]] |}
       (store_of (add_record "students" ["name"; "class"; "age"]
                    [VText "Bilal"; VText "4C"; VText "9"] one_student)),
     [[PyInt 1; PyStr "Aisha"; PyStr "5A"; PyInt 10];
      [PyInt 2; PyStr "Bilal"; PyStr "4C"; PyInt 9]]).
Proof. computed. Qed.

(** C1 as stated fails: a second student entered without an age ([None])
    turns the [age] column of the fetched frame from [int64] into
    [float64], so that the row of Aisha, which was (1, Aisha, 5A, 10), is
    fetched as (1, Aisha, 5A, 10.0): the rows fetched after the insertion
    are not the rows fetched before followed by one new row.  (A double of
    the example host is written as the integer it equals.) *)
Lemma insert_changes_fetched_rows_counterexample :
  ∃ f f' d',
    get_df "students" one_student = Done f one_student ∧
    add_record "students" ["name"; "class"; "age"]
      [VText "Bilal"; VText "4C"; VNull] one_student = Done () d' ∧
    get_df "students" d' = Done f' d' ∧
    df_cells f = [[PyInt 1; PyStr "Aisha"; PyStr "5A"; PyInt 10]] ∧
    df_cells f' = [[PyInt 1; PyStr "Aisha"; PyStr "5A"; PyFloat 10];
                   [PyInt 2; PyStr "Bilal"; PyStr "4C"; PyNaN]] ∧
    ¬ ∃ new, df_cells f' = df_cells f ++ [new].
Proof.
  exists one_student_frame,
    {| columns := ["id"; "name"; "class"; "age"];
       data := [[VInt 1; VText "Aisha"; VText "5A"; VInt 10];
                [VInt 2; VText "Bilal"; VText "4C"; VNull]] |},
    (store_of (add_record "students" ["name"; "class"; "age"]
                 [VText "Bilal"; VText "4C"; VNull] one_student)).
  split; [computed|]. split; [computed|]. split; [computed|].
  split; [computed|]. split; [computed|].
  intros [new E]. vm_compute in E. discriminate E.
Qed.

(** The search of the page sees the difference: the age of Aisha reads
    10 before the insertion and 10.0 after it. *)
Example fetched_age_becomes_float :
  (λ f' : frame,
     (astype_str one_student_frame [VInt 1; VText "Aisha"; VText "5A"; VInt 10],
      astype_str f' [VInt 1; VText "Aisha"; VText "5A"; VInt 10],
      shown_rows "10.0" one_student_frame,
      shown_rows "10.0" f'))
    {| columns := ["id"; "name"; "class"; "age"];
       data := [[VInt 1; VText "Aisha"; VText "5A"; VInt 10];
                [VInt 2; VText "Bilal"; VText "4C"; VNull]] |}
  = (["1"; "Aisha"; "5A"; "10"], ["1"; "Aisha"; "5A"; "10.0"],
     Ok [], Ok [[VInt 1; VText "Aisha"; VText "5A"; VInt 10]]).
Proof. computed. Qed.

(** C2 at student 1 of [one_student], with a new class only. *)
Lemma update_writes_exactly_supplied_witness :
  ∃ d' t',
    update_loop "students" 1 [("name", ""); ("class", "6B"); ("age", "")] one_student
    = Done () d' ∧
    d' !! lower "students" = Some t' ∧
    tfields t' = tfields (table_of one_student "students") ∧
    Forall2 (row_updated (tfields (table_of one_student "students")) 1
               [("name", ""); ("class", "6B"); ("age", "")])
      (trows (table_of one_student "students")) (trows t') ∧
    (∀ k, k ≠ lower "students" → d' !! k = one_student !! k) ∧
    (Forall (λ p, p.2 = "") [("name", ""); ("class", "6B"); ("age", "")] →
     d' = one_student) ∧
    (1 ∉ ids (table_of one_student "students") → d' = one_student).
Proof.
  apply (update_writes_exactly_supplied "students" 1
           [("name", ""); ("class", "6B"); ("age", "")] one_student
           (table_of one_student "students")).
  - reflexivity.
  - unfold identifier. decided.
  - computed.
  - unfold wf_fields. decided.
  - decided.
  - decided.
  - reflexivity.
Defined.

Example update_changes_class :
  (λ t, select_row (tfields t) <$> trows t)
    (table_of (store_of (update_loop "students" 1
                           [("name", ""); ("class", "6B"); ("age", "")] one_student))
       "students")
  = [[VInt 1; VText "Aisha"; VText "6B"; VInt 10]].
Proof. computed. Qed.

(** C3 (as amended) at a query in upper case. *)
Lemma search_plain_query_witness :
  ∃ shown,
    shown_rows "AIS" one_student_frame = Ok shown ∧
    search_spec "AIS" one_student_frame shown ∧
    ("AIS" ≠ "" →
     (∀ r s, r ∈ data one_student_frame → s ∈ astype_str one_student_frame r →
             ¬ ci_contains "AIS" s) →
     shown = []).
Proof.
  apply (search_plain_query "AIS" one_student_frame).
  unfold plain. decided.
Defined.

Example search_finds_aisha :
  shown_rows "AIS" one_student_frame = Ok (data one_student_frame).
Proof. computed. Qed.

(** C3 as stated fails: the query [.] is a regular expression that matches
    any character, so the search displays the row of Aisha although none
    of its cells (1, Aisha, 5A, 10) contains a full stop. *)
Lemma search_dot_counterexample :
  ∃ shown,
    shown_rows "." one_student_frame = Ok shown ∧
    ¬ search_spec "." one_student_frame shown.
Proof.
  exists [[VInt 1; VText "Aisha"; VText "5A"; VInt 10]]. split; [computed|].
  unfold search_spec. simpl. intros (keep & Hkeep & E).
  assert (keep [VInt 1; VText "Aisha"; VText "5A"; VInt 10] = true) as Hrow.
  { simpl in E. by destruct (keep _). }
  apply Hkeep in Hrow as (s & Hin & Hc).
  apply (match_anywhere_contains "." s) in Hc.
  change (astype_str one_student_frame [VInt 1; VText "Aisha"; VText "5A"; VInt 10])
    with ["1"; "Aisha"; "5A"; "10"] in Hin.
  repeat (apply elem_of_cons in Hin as [-> | Hin]; [by vm_compute in Hc|]).
  by apply not_elem_of_nil in Hin.
Qed.

(** C4 at student 1 of [one_student]. *)
Lemma delete_record_at_most_one_witness :
  ∃ d' t',
    delete_record "students" (VInt 1) one_student = Done () d' ∧
    d' !! lower "students" = Some t' ∧
    tfields t' = tfields (table_of one_student "students") ∧
    trows t' = List.filter (λ r, negb (bool_decide (rid r = 1)))
                 (trows (table_of one_student "students")) ∧
    (length (trows (table_of one_student "students")) ≤ S (length (trows t')))%nat ∧
    (∀ k, k ≠ lower "students" → d' !! k = one_student !! k) ∧
    (1 ∉ ids (table_of one_student "students") →
     d' = one_student ∧
     length (trows t') = length (trows (table_of one_student "students"))).
Proof.
  apply (delete_record_at_most_one "students" 1 one_student
           (table_of one_student "students")).
  - computed.
  - decided.
  - reflexivity.
Defined.

Example delete_absent_student :
  delete_record "students" (VInt 5) one_student = Done () one_student.
Proof. computed. Qed.


(** C6 at the scenario of the specification. *)
Lemma add_student_counts_once_witness :
  ∃ d' n teachers books paid,
    add_record "students" ["name"; "class"; "age"]
      [VText "Aisha"; VText "5A"; VInt 10] school = Done () d' ∧
    [ ("Total Students", VInt 1); ("Total Teachers", VInt 0);
      ("Books Issued", VInt 0); ("Total Fees Paid", VInt 1) ]
    = [("Total Students", VInt n); ("Total Teachers", teachers);
       ("Books Issued", books); ("Total Fees Paid", paid)] ∧
    dashboard d'
    = Done [("Total Students", VInt (n + 1)); ("Total Teachers", teachers);
            ("Books Issued", books); ("Total Fees Paid", paid)] d'.
Proof.
  apply (add_student_counts_once (VText "Aisha") (VText "5A") (VInt 10) school
           (table_of school "students") (table_of school "teachers")
           (table_of school "library") (table_of school "fees")).
  - computed.
  - computed.
  - computed.
  - computed.
  - decided.
  - unfold unsaturated. decided.
  - reflexivity.
  - computed.
Defined.

(** C7 at the scenario of the specification: student 7, Present. *)
Lemma mark_attendance_appends_witness :
  ∃ d' t' i,
    ("Present" = "Present" ∨ "Present" = "Absent") ∧
    Forall (λ j, j < i) (ids (table_of one_student "attendance")) ∧
    app Attendance marking "2024-05-06" one_student
    = Done (Records (data (frame_of (table_of one_student "attendance")) ++
                     [[VInt i; VInt 7; VText "2024-05-06"; VText "Present"]])) d' ∧
    d' !! "attendance" = Some t' ∧
    data (frame_of t')
    = data (frame_of (table_of one_student "attendance")) ++
      [[VInt i; VInt 7; VText "2024-05-06"; VText "Present"]].
Proof.
  apply (mark_attendance_appends marking "2024-05-06" 7 "Present" one_student
           (table_of one_student "attendance")).
  - computed.
  - decided.
  - unfold unsaturated. decided.
  - unfold MAX_ROWID. lia.
  - reflexivity.
  - reflexivity.
  - reflexivity.
  - reflexivity.
  - reflexivity.
  - reflexivity.
  - reflexivity.
Defined.

Example mark_attendance_shown :
  app Attendance marking "2024-05-06" started
  = Done (Records [[VInt 1; VInt 7; VText "2024-05-06"; VText "Present"]])
      (store_of (app Attendance marking "2024-05-06" started)).
Proof. computed. Qed.

(** C8 from the empty store, through a marking of attendance and an
    update. *)
Lemma identifiers_unique_and_assigned_witness :
  ids_unique
    (foldl interact ∅
       [ {| sel := Attendance; widgets := marking; clock := "2024-05-06" |};
         {| sel := Students; widgets := updating; clock := "2024-05-07" |} ]) ∧
  ∀ (n : nat) (i : interaction) (k : string),
    [ {| sel := Attendance; widgets := marking; clock := "2024-05-06" |};
      {| sel := Students; widgets := updating; clock := "2024-05-07" |} ] !! n = Some i →
    run_assigns (widgets i) k
      (rid <$> rows_of
         (foldl interact ∅
            (take n [ {| sel := Attendance; widgets := marking; clock := "2024-05-06" |};
                      {| sel := Students; widgets := updating;
                         clock := "2024-05-07" |} ])) k)
      (rid <$> rows_of
         (foldl interact ∅
            (take (S n)
               [ {| sel := Attendance; widgets := marking; clock := "2024-05-06" |};
                 {| sel := Students; widgets := updating;
                    clock := "2024-05-07" |} ])) k).
Proof.
  apply (identifiers_unique_and_assigned
           [ {| sel := Attendance; widgets := marking; clock := "2024-05-06" |};
             {| sel := Students; widgets := updating; clock := "2024-05-07" |} ] ∅).
  unfold ids_unique. decided.
Defined.

Example marked_attendance_identifier :
  (λ d, (rid <$> rows_of d "attendance",
         next_rowid (rid <$> rows_of (∅ : gmap string table_state) "attendance")))
    (interact ∅ {| sel := Attendance; widgets := marking; clock := "2024-05-06" |})
  = ([1], Some 1).
Proof. computed. Qed.

(** C9 at student 1 of [school], to whom an attendance entry and a fee
    record refer. *)
Lemma delete_student_keeps_dependents_witness :
  ∃ d',
    delete_record "students" (VInt 1) school = Done () d' ∧
    d' !! "attendance" = school !! "attendance" ∧
    d' !! "fees" = school !! "fees" ∧
    d' !! "exams" = school !! "exams" ∧
    d' !! "library" = school !! "library" ∧
    (∀ k, k ≠ "students" → rows_of d' k = rows_of school k).
Proof.
  apply (delete_student_keeps_dependents 1 school (table_of school "students")).
  - computed.
  - reflexivity.
Defined.

Example orphaned_attendance :
  (λ d, (data (frame_of (table_of d "students")),
         data (frame_of (table_of d "attendance"))))
    (store_of (delete_record "students" (VInt 1) school))
  = ([], [[VInt 1; VInt 1; VText "2024-05-06"; VText "Present"]]).
Proof. computed. Qed.

(** C10 at an update of the only student, and at a run that adds a
    second one. *)
Lemma identifiers_immutable_witness :
  (run_changes updating "students" (rows_of one_student "students")
     (rows_of (store_of (app Students updating "2024-05-07" one_student)) "students") ∧
   (only_updates updating →
    rid <$> rows_of (store_of (app Students updating "2024-05-07" one_student)) "students"
    = rid <$> rows_of one_student "students")) ∧
  (run_changes adding "students" (rows_of one_student "students")
     (rows_of (store_of (app Students adding "2024-05-07" one_student)) "students") ∧
   (only_updates adding →
    rid <$> rows_of (store_of (app Students adding "2024-05-07" one_student)) "students"
    = rid <$> rows_of one_student "students")).
Proof.
  split.
  - apply (identifiers_immutable Students updating "2024-05-07" one_student "students").
  - apply (identifiers_immutable Students adding "2024-05-07" one_student "students").
Defined.

Example update_keeps_identifier :
  rid <$> rows_of (store_of (app Students updating "2024-05-07" one_student)) "students"
  = [1].
Proof. computed. Qed.

Example added_student_identifier :
  select_row (tfields (table_of one_student "students"))
  <$> rows_of (store_of (app Students adding "2024-05-07" one_student)) "students"
  = [[VInt 1; VText "Aisha"; VText "5A"; VInt 10];
     [VInt 2; VText "Bilal"; VText "4C"; VInt 9]].
Proof. computed. Qed.

End Examples.

(** * Further examples *)

Section FurtherExamples.
#[local] Existing Instance integral_host.

Ltac decided := apply (bool_decide_unpack _); vm_compute; exact I.

(** X1 on an empty file: the fees table is created as declared. *)
Lemma startup_creates_missing_tables_witness :
  ∃ d', create_tables tables ∅ = Done () d' ∧
        d' !! "fees"
        = Some {| tfields := [("student_id", INTEGER); ("amount", REAL); ("paid", INTEGER)];
                  trows := [] |} ∧
        create_tables tables d' = Done () d'.
Proof.
  destruct (startup_creates_missing_tables ∅) as (d' & E & _ & Hdecl & _ & Hagain).
  exists d'. split; [exact E|]. split; [|exact Hagain].
  apply (Hdecl "fees"); [decided | reflexivity].
Defined.

(** X2 with two values for three columns. *)
Lemma add_record_arity_witness :
  add_record "students" ["name"; "class"; "age"] [VText "Aisha"; VText "5A"] started
  = Raised OperationalError started.
Proof.
  apply (add_record_arity "students" ["name"; "class"; "age"]
           [VText "Aisha"; VText "5A"] started).
  - reflexivity.
  - unfold identifier. decided.
  - right. simpl. lia.
Defined.

(** X3 for the fees of [school] and writes to [students]. *)
Lemma writes_stay_in_their_table_witness :
  store_of (add_record "students" ["name"] [VText "Bilal"] school) !! "fees"
  = school !! "fees" ∧
  store_of (delete_record "students" (VInt 1) school) !! "fees" = school !! "fees" ∧
  store_of (update_loop "students" 1 [("class", "6B")] school) !! "fees"
  = school !! "fees".
Proof.
  apply (writes_stay_in_their_table "students" ["name"] [VText "Bilal"] (VInt 1) 1
           [("class", "6B")] school "fees").
  - reflexivity.
  - unfold identifier. decided.
  - unfold identifier. decided.
  - discriminate.
Defined.

(** X4 with an insert that names [id] and an update of [id]. *)
Lemma writes_keep_identifiers_distinct_witness :
  ids_unique (store_of (add_record "students" ["id"; "name"] [VInt 1; VText "Bilal"]
                          one_student)) ∧
  ids_unique (store_of (delete_record "students" (VInt 1) one_student)) ∧
  ids_unique (store_of (update_loop "students" 1 [("id", "5")] one_student)).
Proof.
  apply (writes_keep_identifiers_distinct "students" ["id"; "name"]
           [VInt 1; VText "Bilal"] (VInt 1) 1 [("id", "5")] one_student).
  unfold ids_unique. decided.
Defined.

Example explicit_id_in_use :
  add_record "students" ["id"; "name"] [VInt 1; VText "Bilal"] one_student
  = Raised IntegrityError one_student.
Proof. reflexivity. Qed.

(** An insert that lists the rowid twice takes the last listed value. *)
Example rowid_listed_twice :
  rid <$> rows_of (store_of (add_record "students" ["id"; "ID"; "name"]
                               [VInt 50; VInt 60; VText "Bilal"] one_student))
            "students"
  = [1; 60].
Proof. reflexivity. Qed.

(** X5 at a second student of [one_student]. *)
Lemma insert_then_delete_restores_witness :
  ∃ d' i,
    add_record "students" ["name"; "class"; "age"]
      [VText "Bilal"; VText "4C"; VText "9"] one_student = Done () d' ∧
    next_rowid (ids (table_of one_student "students")) = Some i ∧
    ids (default (table_of one_student "students") (d' !! lower "students"))
    = ids (table_of one_student "students") ++ [i] ∧
    delete_record "students" (VInt i) d' = Done () one_student.
Proof.
  apply (insert_then_delete_restores "students" ["name"; "class"; "age"]
           [VText "Bilal"; VText "4C"; VText "9"] one_student
           (table_of one_student "students")).
  - reflexivity.
  - unfold wf_fields. decided.
  - unfold unsaturated. decided.
  - decided.
  - discriminate.
  - decided.
  - reflexivity.
  - reflexivity.
Defined.

(** X6 at the students of [one_student]: the student in use and an
    identifier that is not. *)
Lemma delete_record_idempotent_commutes_witness :
  store_of (delete_record "students" (VInt 1)
              (store_of (delete_record "students" (VInt 1) one_student)))
  = store_of (delete_record "students" (VInt 1) one_student) ∧
  store_of (delete_record "students" (VInt 1)
              (store_of (delete_record "students" (VInt 2) one_student)))
  = store_of (delete_record "students" (VInt 2)
                (store_of (delete_record "students" (VInt 1) one_student))).
Proof.
  apply (delete_record_idempotent_commutes "students" (VInt 1) (VInt 2) one_student).
  - reflexivity.
  - by eexists.
Defined.

(** X7 at a regular expression. *)
Lemma search_shows_rows_of_the_table_witness :
  sublist [[VInt 1; VText "Aisha"; VText "5A"; VInt 10]] (data one_student_frame).
Proof.
  apply (search_shows_rows_of_the_table "a.s" one_student_frame).
  reflexivity.
Defined.

(** X8 at the query [a.s], which finds Aisha. *)
Lemma search_full_stop_is_wildcard_witness :
  ∃ keep : list value → bool,
    (∀ r, keep r = true
          ↔ ∃ s, s ∈ astype_str one_student_frame r ∧ wild_contains "a.s" s) ∧
    shown_rows "a.s" one_student_frame = Ok (List.filter keep (data one_student_frame)).
Proof.
  apply (search_full_stop_is_wildcard "a.s" one_student_frame).
  - unfold dotted. decided.
  - discriminate.
Defined.

(** X9 at a second student typed into the Add panel. *)
Lemma add_panel_inserts_and_shows_witness :
  ∃ d' i,
    add_record "students" ["name"; "class"; "age"]
      ((λ label, VText (text_input adding label))
       <$> take (length ["name"; "class"; "age"]) ["Name"; "Class"; "Age"]) one_student
    = Done () d' ∧
    Forall (λ j, j < i) (ids (table_of one_student "students")) ∧
    crud_module "Students Management" "students" ["name"; "class"; "age"]
      ["Name"; "Class"; "Age"] ["name"; "class"; "age"] adding one_student
    = Done (data (frame_of (table_of one_student "students")) ++
            [VInt i :: ((λ fa, stored fa.2
                           (record_of ["name"; "class"; "age"]
                              ((λ label, VText (text_input adding label))
                               <$> take (length ["name"; "class"; "age"])
                                     ["Name"; "Class"; "Age"]) !! fa.1))
                        <$> tfields (table_of one_student "students"))]) d'.
Proof.
  apply (add_panel_inserts_and_shows "Students Management" "students"
           ["name"; "class"; "age"] ["Name"; "Class"; "Age"] ["name"; "class"; "age"]
           adding one_student (table_of one_student "students")).
  - reflexivity.
  - unfold wf_fields. decided.
  - unfold unsaturated. decided.
  - discriminate.
  - decided.
  - decided.
  - reflexivity.
  - reflexivity.
  - reflexivity.
  - reflexivity.
  - reflexivity.
Defined.

Example add_panel_shown :
  crud_module "Students Management" "students" ["name"; "class"; "age"]
    ["Name"; "Class"; "Age"] ["name"; "class"; "age"] adding one_student
  = Done [[VInt 1; VText "Aisha"; VText "5A"; VInt 10];
          [VInt 2; VText "Bilal"; VText "4C"; VInt 9]]
      (store_of (add_record "students" ["name"; "class"; "age"]
                   [VText "Bilal"; VText "4C"; VText "9"] one_student)).
Proof. reflexivity. Qed.

(** X10 with Delete Record pressed and the box not ticked. *)
Lemma delete_waits_for_confirmation_witness :
  store_of (crud_module "Students Management" "students" ["name"; "class"; "age"]
              ["Name"; "Class"; "Age"] ["name"; "class"; "age"]
              {| text_input := λ _, ""; number_input := λ _, 1;
                 button := λ key, bool_decide (key = "del_students");
                 checkbox := λ _, false; selectbox := λ _, 0%nat |} one_student)
  = one_student.
Proof.
  apply (delete_waits_for_confirmation "Students Management" "students"
           ["name"; "class"; "age"] ["Name"; "Class"; "Age"] ["name"; "class"; "age"]).
  - reflexivity.
  - reflexivity.
  - reflexivity.
Defined.

(** X11 with Delete Record and Update Record pressed and the box ticked. *)
Lemma confirmed_delete_reruns_witness :
  crud_module "Students Management" "students" ["name"; "class"; "age"]
    ["Name"; "Class"; "Age"] ["name"; "class"; "age"] (deleting true) one_student
  = Raised RerunException
      (put_rows "students" (table_of one_student "students")
         (List.filter
            (λ r, negb (bool_decide
                          (rid r = Z.max 1 (number_input (deleting true)
                                              ("id_" +:+ "students")))))
            (trows (table_of one_student "students"))) one_student).
Proof.
  apply (confirmed_delete_reruns "Students Management" "students"
           ["name"; "class"; "age"] ["Name"; "Class"; "Age"] ["name"; "class"; "age"]
           (deleting true) one_student (table_of one_student "students")
           (data one_student_frame)).
  - reflexivity.
  - reflexivity.
  - reflexivity.
  - reflexivity.
  - reflexivity.
  - unfold MAX_ROWID. simpl. lia.
Defined.

Example confirmed_delete_leaves_no_student :
  rows_of (store_of (crud_module "Students Management" "students" ["name"; "class"; "age"]
                       ["Name"; "Class"; "Age"] ["name"; "class"; "age"]
                       (deleting true) one_student)) "students" = [].
Proof. reflexivity. Qed.

(** X12 on the Fees page of [school] with a query typed. *)
Lemma idle_run_only_reads_witness :
  store_of (app Fees
              {| text_input := λ _, "500"; number_input := λ _, 3;
                 button := λ _, false; checkbox := λ _, true;
                 selectbox := λ _, 1%nat |} "2024-05-06" school)
  = store_of (create_tables tables school) ∧
  tables_kept school
    (store_of (app Fees
                 {| text_input := λ _, "500"; number_input := λ _, 3;
                    button := λ _, false; checkbox := λ _, true;
                    selectbox := λ _, 1%nat |} "2024-05-06" school)) ∧
  same_rows school
    (store_of (app Fees
                 {| text_input := λ _, "500"; number_input := λ _, 3;
                    button := λ _, false; checkbox := λ _, true;
                    selectbox := λ _, 1%nat |} "2024-05-06" school)).
Proof.
  apply (idle_run_only_reads Fees
           {| text_input := λ _, "500"; number_input := λ _, 3;
              button := λ _, false; checkbox := λ _, true;
              selectbox := λ _, 1%nat |} "2024-05-06" school).
  intros key. reflexivity.
Defined.

(** X13 at 2024. *)
Lemma typed_integer_is_stored_as_integer_witness :
  apply_affinity INTEGER (VText (pretty 2024)) = VInt 2024 ∧
  apply_affinity TEXT (VInt 2024) = VText (pretty 2024) ∧
  apply_affinity INTEGER (apply_affinity TEXT (VInt 2024)) = VInt 2024.
Proof. apply (typed_integer_is_stored_as_integer 2024). reflexivity. Defined.

(** X14 for student 7, Present. *)
Lemma attendance_paths_agree_witness :
  store_of (app Attendance marking "2024-05-06" one_student)
  = store_of (app Attendance adding_attendance "2024-05-07" one_student).
Proof.
  apply (attendance_paths_agree marking adding_attendance "2024-05-06" "2024-05-07"
           7 "Present" one_student (table_of one_student "attendance")).
  - reflexivity.
  - decided.
  - unfold MAX_ROWID. lia.
  - reflexivity.
  - reflexivity.
  - reflexivity.
  - reflexivity.
  - reflexivity.
  - reflexivity.
  - reflexivity.
  - reflexivity.
  - reflexivity.
  - reflexivity.
  - reflexivity.
  - reflexivity.
  - reflexivity.
Defined.

(** X15 at student 1 of [school]. *)
Lemma delete_student_counts_once_witness :
  ∃ d' n teachers books paid,
    delete_record "students" (VInt 1) school = Done () d' ∧
    [ ("Total Students", VInt 1); ("Total Teachers", VInt 0);
      ("Books Issued", VInt 0); ("Total Fees Paid", VInt 1) ]
    = [("Total Students", VInt n); ("Total Teachers", teachers);
       ("Books Issued", books); ("Total Fees Paid", paid)] ∧
    dashboard d'
    = Done [("Total Students",
             VInt (if bool_decide (1 ∈ ids (table_of school "students"))
                   then n - 1 else n));
            ("Total Teachers", teachers); ("Books Issued", books);
            ("Total Fees Paid", paid)] d'.
Proof.
  apply (delete_student_counts_once 1 school (table_of school "students")
           (table_of school "teachers") (table_of school "library")
           (table_of school "fees")).
  - reflexivity.
  - reflexivity.
  - reflexivity.
  - reflexivity.
  - decided.
  - reflexivity.
  - reflexivity.
Defined.

End FurtherExamples.
